(** * mcptrust: the Python client of the [mcptrust] command-line tool

    A shallow embedding of [mcptrust_core] ([cli.py], [errors.py],
    [types.py]) and of the framework adapters built on it
    ([autogen_mcptrust/guard.py], [langchain_mcptrust/server.py]), with the
    properties of the command builder and of the result normalisation.

    Python [str] values are modelled as [string] (a sequence of code points
    below 256), [int] as [Z], [list[str]] as [list string], [X | None] as
    [option X], [os.environ] as a [gmap string string].  A call that may
    raise returns [exception + A]; code that talks to the operating system
    threads a [world] through. *)

From Stdlib Require Import ZArith Ascii String DecimalString.
From stdpp Require Import base strings list gmap.

(** String concatenation computes on a string that starts with a known
    character. *)
#[global] Arguments String.append !_ _ / : simpl nomatch.

(** ** Python built-ins used by the client *)

Module Py.

(** Truth value of a [str | None]: [None] and [""] are falsy. *)
Definition truthy_str (s : option string) : bool :=
  match s with
  | Some (String _ _) => true
  | _ => false
  end.

(** Truth value of a [list | None]: [None] and [[]] are falsy. *)
Definition truthy_list {A} (l : option (list A)) : bool :=
  match l with
  | Some (_ :: _) => true
  | _ => false
  end.

(** Truth value of a [str]: only [""] is falsy. *)
Definition nonempty (s : string) : bool :=
  match s with
  | EmptyString => false
  | String _ _ => true
  end.

(** [f"{n}"] for an [int]: its decimal numeral. *)
Definition str_int (n : Z) : string := NilZero.string_of_int (Z.to_int n).

(** [sep.join(parts)]. *)
Fixpoint join (sep : string) (parts : list string) : string :=
  match parts with
  | [] => ""
  | [p] => p
  | p :: rest => p +:+ sep +:+ join sep rest
  end.

(** [c * n]: the character [c], [n] times. *)
Fixpoint times (c : ascii) (n : nat) : string :=
  match n with
  | O => ""
  | S n => String c (times c n)
  end.

(** [s[:n]]. *)
Definition slice_to (n : nat) (s : string) : string := substring 0 n s.

(** [c in s] for a one-character [c]. *)
Fixpoint contains (c : ascii) (s : string) : bool :=
  match s with
  | EmptyString => false
  | String d rest => if Ascii.eqb c d then true else contains c rest
  end.

(** The characters the lexers and [repr] single out. *)
Definition squote : ascii := "'".
Definition dquote : ascii := ascii_of_N 34.
Definition backslash : ascii := ascii_of_N 92.

Definition hex_digit (n : N) : ascii :=
  match n with
  | 0 => "0" | 1 => "1" | 2 => "2" | 3 => "3" | 4 => "4" | 5 => "5"
  | 6 => "6" | 7 => "7" | 8 => "8" | 9 => "9" | 10 => "a" | 11 => "b"
  | 12 => "c" | 13 => "d" | 14 => "e" | _ => "f"
  end%N%char.

(** [str.isprintable] on a code point below 256: the C0 and C1 controls,
    DEL, the no-break space and the soft hyphen are not printable. *)
Definition isprintable (c : ascii) : bool :=
  let n := N_of_ascii c in
  ((32 <=? n) && (n <? 127) || (161 <=? n) && negb (n =? 173))%N.

(** One character of [repr(s)], inside the quote [q]. *)
Definition repr_char (q c : ascii) : string :=
  let n := N_of_ascii c in
  if Ascii.eqb c q || Ascii.eqb c backslash then String backslash (String c "")
  else if (n =? 9)%N then String backslash "t"
  else if (n =? 10)%N then String backslash "n"
  else if (n =? 13)%N then String backslash "r"
  else if isprintable c then String c ""
  else String backslash (String "x"
         (String (hex_digit (n / 16)) (String (hex_digit (n mod 16)) ""))).

Fixpoint repr_body (q : ascii) (s : string) : string :=
  match s with
  | EmptyString => ""
  | String c rest => repr_char q c +:+ repr_body q rest
  end.

(** [repr(s)] of a [str] ([f"{s!r}"]): single quotes, unless the text has
    a single quote and no double quote. *)
Definition repr (s : string) : string :=
  let q : ascii :=
    if contains squote s && negb (contains dquote s) then dquote else squote in
  String q (repr_body q s) +:+ String q "".

End Py.

(** ** [shlex.split] of the Python standard library

    [_parse_server_command] hands a command string to [shlex.split(s)]: a
    [shlex] lexer in POSIX mode with [whitespace_split] set and no comment
    characters.  [read] is the loop of [shlex.read_token], run over the whole
    input: each [break] of that loop hands the token to the caller ([emit])
    and starts the next call with an empty token. *)

Module shlex.

(** [self.state]: [' '], ['a'], a quote character, or an escape character. *)
Inductive lexstate :=
| Blank
| InWord
| InQuote (q : ascii)
| InEscape (e : ascii).

(** [self.whitespace = ' \t\r\n'] *)
Definition whitespace (c : ascii) : bool :=
  let n := N_of_ascii c in
  ((n =? 32) || (n =? 9) || (n =? 13) || (n =? 10))%N.

(** [self.quotes] is a single and a double quote, [self.escape] a
    backslash, [self.escapedquotes] a double quote. *)
Definition quotes (c : ascii) : bool :=
  Ascii.eqb c Py.squote || Ascii.eqb c Py.dquote.
Definition escape (c : ascii) : bool := Ascii.eqb c Py.backslash.
Definition escapedquotes (c : ascii) : bool := Ascii.eqb c Py.dquote.

Definition push (token : string) (c : ascii) : string :=
  token +:+ String c "".

(** The end of one [read_token] call: an unquoted empty token is [None],
    which ends the iteration; any other token is yielded and the lexer
    goes on with [more]. *)
Definition emit (quoted : bool) (token : string)
    (more : string + list string) : string + list string :=
  if negb quoted && negb (Py.nonempty token) then inr []
  else match more with
       | inl e => inl e
       | inr tokens => inr (token :: tokens)
       end.

Fixpoint read (state escapedstate : lexstate) (quoted : bool)
    (token : string) (instream : string) : string + list string :=
  match instream with
  | EmptyString =>
      match state with
      | Blank | InWord => emit quoted token (inr [])
      | InQuote _ => inl "No closing quotation"
      | InEscape _ => inl "No escaped character"
      end
  | String nextchar rest =>
      match state with
      | Blank =>
          if whitespace nextchar then
            if Py.nonempty token || quoted
            then emit quoted token (read Blank Blank false "" rest)
            else read Blank escapedstate quoted token rest
          else if escape nextchar then
            read (InEscape nextchar) InWord quoted token rest
          else if quotes nextchar then
            read (InQuote nextchar) escapedstate quoted token rest
          else read InWord escapedstate quoted (String nextchar "") rest
      | InWord =>
          if whitespace nextchar then
            if Py.nonempty token || quoted
            then emit quoted token (read Blank Blank false "" rest)
            else read Blank escapedstate quoted token rest
          else if quotes nextchar then
            read (InQuote nextchar) escapedstate quoted token rest
          else if escape nextchar then
            read (InEscape nextchar) InWord quoted token rest
          else read InWord escapedstate quoted (push token nextchar) rest
      | InQuote q =>
          if Ascii.eqb nextchar q then
            read InWord escapedstate true token rest
          else if escape nextchar && escapedquotes q then
            read (InEscape nextchar) (InQuote q) true token rest
          else read (InQuote q) escapedstate true (push token nextchar) rest
      | InEscape e =>
          let token :=
            match escapedstate with
            | InQuote q =>
                if negb (Ascii.eqb nextchar e) && negb (Ascii.eqb nextchar q)
                then push token e else token
            | _ => token
            end in
          read escapedstate escapedstate quoted (push token nextchar) rest
      end
  end.

(** [shlex.split(s)]: the tokens, or the message of the [ValueError]. *)
Definition split (s : string) : string + list string :=
  read Blank Blank false "" s.

End shlex.

(** ** [types.py] *)

Module LogConfig.
(** The annotations restrict [format] to "pretty"/"jsonl" and [level] to
    "debug"/"info"/"warn"/"error"; a dataclass stores any [str]. *)
Record t := mk { format : string; level : string; output : string }.
Definition default : t := mk "pretty" "info" "stderr".
End LogConfig.

Module ReceiptConfig.
Record t := mk { path : string; mode : string }.
End ReceiptConfig.

Module LockResult.
Record t := mk { lockfile_path : string; stdout : string; stderr : string }.
End LockResult.

Module CheckResult.
Record t := mk {
  passed : bool;
  diff_stdout : string;
  diff_stderr : string;
  policy_stdout : string;
  policy_stderr : string }.
End CheckResult.

Module RunResult.
Record t := mk { exit_code : Z; stdout : string; stderr : string }.
End RunResult.

(** What [subprocess.run(..., capture_output=True, text=True)] returns. *)
Module CompletedProcess.
Record t := mk { returncode : Z; stdout : string; stderr : string }.
End CompletedProcess.

(** ** [errors.py] *)

Module MCPTrustNotInstalled.
Definition default_message : string :=
  "mcptrust binary not found. " +:+
  "Install with: go install github.com/mcptrust/mcptrust/cmd/mcptrust@latest " +:+
  "or set MCPTRUST_BIN environment variable.".

(** [__init__(message=None)]: the message the exception carries. *)
Definition __init__ (message : option string) : string :=
  match message with
  | None => default_message
  | Some m => m
  end.
End MCPTrustNotInstalled.

Module MCPTrustCommandError.
Record t := mk {
  message : string;
  exit_code : Z;
  argv : list string;
  stdout : string;
  stderr : string }.

(** The preview of [stderr] that [__str__] shows. *)
Definition stderr_preview (stderr : string) : string :=
  if (200 <? String.length stderr)%nat
  then Py.slice_to 200 stderr +:+ "..."
  else stderr.

Definition __str__ (self : t) : string :=
  let base := message self in
  let parts := [base; "exit_code=" +:+ Py.str_int (exit_code self)] in
  let parts :=
    if Py.nonempty (stderr self)
    then parts ++ ["stderr=" +:+ Py.repr (stderr_preview (stderr self))]
    else parts in
  Py.join " | " parts.
End MCPTrustCommandError.

(** The exceptions that can leave the client: the built-in [ValueError],
    the two classes of [errors.py], and what [subprocess.run] raises by
    itself ([TimeoutExpired], [OSError]), which the client never catches. *)
Inductive exception :=
| ValueError (msg : string)
| NotInstalled (msg : string)
| CommandError (e : MCPTrustCommandError.t)
| SubprocessError (name : string).

(** ** The operating system, and code that runs on it

    [OS] is the state of the machine the client runs on.  The client reads
    [os.environ], asks [shutil.which] and [os.path.exists], and calls
    [subprocess.run], which either returns the completed child process or
    raises an exception of its own, given here by its class name. *)

Class Platform (OS : Type) := {
  environ : OS → gmap string string;
  shutil_which : OS → string → option string;
  os_path_exists : OS → string → bool;
  subprocess_run :
    list string → option Z → OS → (string + CompletedProcess.t) * OS }.

(** The machine state together with the argument vectors of the child
    processes spawned so far, in order (what the test suite reads off its
    [subprocess.run] mock as [call_args_list]). *)
Record world (OS : Type) := World { host : OS; spawned : list (list string) }.
Arguments World {OS} _ _.
Arguments host {OS} _.
Arguments spawned {OS} _.

(** A Python computation: it ends in a value or in a raised exception, and
    leaves a world behind in both cases. *)
Definition M (OS : Type) (A : Type) : Type :=
  world OS → (exception + A) * world OS.

Global Instance M_ret {OS} : MRet (M OS) := λ A a w, (inr a, w).

Global Instance M_bind {OS} : MBind (M OS) := λ A B k m w,
  match m w with
  | (inl e, w') => (inl e, w')
  | (inr a, w') => k a w'
  end.

Definition raise {OS A} (e : exception) : M OS A := λ w, (inl e, w).

(** A pure call that may raise. *)
Definition lift {OS A} (r : exception + A) : M OS A := λ w, (r, w).

(** [try: body  except MCPTrustCommandError as e: handler]: every other
    exception passes through. *)
Definition try_except_CommandError {OS A}
    (body : M OS A) (handler : MCPTrustCommandError.t → M OS A) : M OS A :=
  λ w, match body w with
       | (inl (CommandError e), w') => handler e w'
       | r => r
       end.

Section platform_calls.
Context `{Platform OS}.

Definition os_environ : M OS (gmap string string) :=
  λ w, (inr (environ (host w)), w).

Definition which (cmd : string) : M OS (option string) :=
  λ w, (inr (shutil_which (host w) cmd), w).

Definition path_exists (path : string) : M OS bool :=
  λ w, (inr (os_path_exists (host w) path), w).

(** [subprocess.run(argv, capture_output=True, text=True, timeout=timeout)] *)
Definition spawn (argv : list string) (timeout : option Z)
    : M OS CompletedProcess.t :=
  λ w, let '(r, os) := subprocess_run argv timeout (host w) in
       (match r with
        | inl name => inl (SubprocessError name)
        | inr result => inr result
        end, World os (spawned w ++ [argv])).
End platform_calls.

(** ** [cli.py]: class [MCPTrust] *)

Module MCPTrust.

(** An instance holds the resolved path of the binary, [self._bin_path]. *)
Record t := mk { bin_path : string }.

(** [_build_common_flags(log, receipt)] *)
Definition _build_common_flags
    (log : option LogConfig.t) (receipt : option ReceiptConfig.t)
    : list string :=
  let flags := [] in
  let flags :=
    match log with
    | Some log =>
        flags ++ ["--log-format"; LogConfig.format log]
              ++ ["--log-level"; LogConfig.level log]
              ++ ["--log-output"; LogConfig.output log]
    | None => flags
    end in
  let flags :=
    match receipt with
    | Some receipt =>
        flags ++ ["--receipt"; ReceiptConfig.path receipt]
              ++ ["--receipt-mode"; ReceiptConfig.mode receipt]
    | None => flags
    end in
  flags.

(** [_parse_server_command(server_command, server_argv)] *)
Definition _parse_server_command
    (server_command : option string) (server_argv : option (list string))
    : exception + list string :=
  if Py.truthy_str server_command && Py.truthy_list server_argv then
    inl (ValueError "Specify server_command OR server_argv, not both")
  else if Py.truthy_list server_argv then
    inr (default [] server_argv)
  else if Py.truthy_str server_command then
    match shlex.split (default "" server_command) with
    | inl msg => inl (ValueError msg)
    | inr tokens => inr tokens
    end
  else inl (ValueError "Must specify server_command or server_argv").

Section methods.
Context `{Platform OS}.

(** [MCPTrust(bin_path=None)] *)
Definition __init__ (bin_path : option string) : M OS t :=
  if Py.truthy_str bin_path then mret (mk (default "" bin_path))
  else
    env ← os_environ;
    let env_bin := env !! "MCPTRUST_BIN" in
    if Py.truthy_str env_bin then mret (mk (default "" env_bin))
    else
      which_bin ← which "mcptrust";
      if Py.truthy_str which_bin then mret (mk (default "" which_bin))
      else raise (NotInstalled (MCPTrustNotInstalled.__init__ None)).

(** [_run(argv, timeout=None)] *)
Definition _run (self : t) (argv : list string) (timeout : option Z)
    : M OS CompletedProcess.t :=
  let full_argv := [bin_path self] ++ argv in
  result ← spawn full_argv timeout;
  if negb (CompletedProcess.returncode result =? 0)%Z then
    raise (CommandError (MCPTrustCommandError.mk
      ("mcptrust exited with code " +:+
         Py.str_int (CompletedProcess.returncode result))
      (CompletedProcess.returncode result)
      full_argv
      (CompletedProcess.stdout result)
      (CompletedProcess.stderr result)))
  else mret result.

(** [lock(server_command=None, server_argv=None,
    lockfile="mcp-lock.json", pin=True, verify_provenance=False,
    timeout=None, log=None, receipt=None)] *)
Definition lock (self : t)
    (server_command : option string) (server_argv : option (list string))
    (lockfile : string) (pin verify_provenance : bool)
    (timeout : option Z)
    (log : option LogConfig.t) (receipt : option ReceiptConfig.t)
    : M OS LockResult.t :=
  cmd_tokens ← lift (_parse_server_command server_command server_argv);
  let argv := ["lock"] in
  let argv := argv ++ _build_common_flags log receipt in
  let argv := argv ++ ["--output"; lockfile] in
  let argv := if pin then argv ++ ["--pin"] else argv in
  let argv :=
    if verify_provenance then argv ++ ["--verify-provenance"] else argv in
  let argv := argv ++ ["--"] in
  let argv := argv ++ cmd_tokens in
  result ← _run self argv timeout;
  mret (LockResult.mk lockfile
          (CompletedProcess.stdout result)
          (CompletedProcess.stderr result)).

(** [check(server_command=None, server_argv=None,
    lockfile="mcp-lock.json", preset="baseline", timeout=None, log=None,
    receipt=None, raise_on_fail=False)] *)
Definition check (self : t)
    (server_command : option string) (server_argv : option (list string))
    (lockfile preset : string) (timeout : option Z)
    (log : option LogConfig.t) (receipt : option ReceiptConfig.t)
    (raise_on_fail : bool) : M OS CheckResult.t :=
  cmd_tokens ← lift (_parse_server_command server_command server_argv);
  let common_flags := _build_common_flags log receipt in
  let diff_argv := ["diff"; "--lockfile"; lockfile] in
  let diff_argv := diff_argv ++ common_flags in
  let diff_argv := diff_argv ++ ["--"] in
  let diff_argv := diff_argv ++ cmd_tokens in
  '(diff_passed, diff_stdout, diff_stderr, diff_error) ←
    try_except_CommandError
      (diff_result ← _run self diff_argv timeout;
       mret (true, CompletedProcess.stdout diff_result,
             CompletedProcess.stderr diff_result, None))
      (λ e, mret (false, MCPTrustCommandError.stdout e,
                  MCPTrustCommandError.stderr e, Some e));
  let policy_argv :=
    ["policy"; "check"; "--preset"; preset; "--lockfile"; lockfile] in
  let policy_argv := policy_argv ++ common_flags in
  let policy_argv := policy_argv ++ ["--"] in
  let policy_argv := policy_argv ++ cmd_tokens in
  '(policy_passed, policy_stdout, policy_stderr, policy_error) ←
    try_except_CommandError
      (policy_result ← _run self policy_argv timeout;
       mret (true, CompletedProcess.stdout policy_result,
             CompletedProcess.stderr policy_result, None))
      (λ e, mret (false, MCPTrustCommandError.stdout e,
                  MCPTrustCommandError.stderr e, Some e));
  let passed := diff_passed && policy_passed in
  let result :=
    CheckResult.mk passed diff_stdout diff_stderr
      policy_stdout policy_stderr in
  if raise_on_fail && negb passed then
    match diff_error, policy_error with
    | Some diff_error, _ => raise (CommandError diff_error)
    | None, Some policy_error => raise (CommandError policy_error)
    | None, None => mret result
    end
  else mret result.

(** [run], all arguments by keyword: [lockfile="mcp-lock.json",
    require_provenance=False, dry_run=False, bin_name=None, timeout=None,
    log=None, receipt=None, raise_on_fail=True] *)
Definition run (self : t)
    (lockfile : string) (require_provenance dry_run : bool)
    (bin_name : option string) (timeout : option Z)
    (log : option LogConfig.t) (receipt : option ReceiptConfig.t)
    (raise_on_fail : bool) : M OS RunResult.t :=
  let argv := ["run"; "--lock"; lockfile] in
  let argv := argv ++ _build_common_flags log receipt in
  let argv :=
    if require_provenance then argv ++ ["--require-provenance"]
    else argv ++ ["--require-provenance=false"] in
  let argv := if dry_run then argv ++ ["--dry-run"] else argv in
  let argv :=
    if Py.truthy_str bin_name
    then argv ++ ["--bin"; default "" bin_name] else argv in
  try_except_CommandError
    (result ← _run self argv timeout;
     mret (RunResult.mk 0
             (CompletedProcess.stdout result)
             (CompletedProcess.stderr result)))
    (λ e,
       if raise_on_fail then raise (CommandError e)
       else mret (RunResult.mk
                    (MCPTrustCommandError.exit_code e)
                    (MCPTrustCommandError.stdout e)
                    (MCPTrustCommandError.stderr e))).

End methods.
End MCPTrust.

(** ** [autogen_mcptrust/guard.py]: class [MCPTrustGuard] *)

Module MCPTrustGuard.

Record t := mk {
  mcp : MCPTrust.t;
  server_command : option string;
  server_argv : option (list string);
  lockfile : string;
  preset : string;
  log : option LogConfig.t;
  receipt : option ReceiptConfig.t }.

Section methods.
Context `{Platform OS}.

(** [MCPTrustGuard(mcp=None, server_command=None, server_argv=None,
    lockfile="mcp-lock.json", preset="baseline", log=None, receipt=None)] *)
Definition __init__ (mcp : option MCPTrust.t)
    (server_command : option string) (server_argv : option (list string))
    (lockfile preset : string)
    (log : option LogConfig.t) (receipt : option ReceiptConfig.t)
    : M OS t :=
  if negb (Py.truthy_str server_command)
     && negb (Py.truthy_list server_argv) then
    raise (ValueError "Must specify server_command or server_argv")
  else
    mcp ← match mcp with
           | Some mcp => mret mcp
           | None => MCPTrust.__init__ None
           end;
    if Py.truthy_list server_argv
    then mret (mk mcp None server_argv lockfile preset log receipt)
    else mret (mk mcp server_command None lockfile preset log receipt).

(** [lock(pin=True, verify_provenance=False)] *)
Definition lock (self : t) (pin verify_provenance : bool)
    : M OS LockResult.t :=
  MCPTrust.lock (mcp self) (server_command self) (server_argv self)
    (lockfile self) pin verify_provenance None (log self) (receipt self).

(** [check(raise_on_fail=False)] *)
Definition check (self : t) (raise_on_fail : bool) : M OS CheckResult.t :=
  MCPTrust.check (mcp self) (server_command self) (server_argv self)
    (lockfile self) (preset self) None (log self) (receipt self)
    raise_on_fail.

(** [ensure(pin=True, verify_provenance=False, raise_on_fail=True,
    lock_if_missing=True)] *)
Definition ensure (self : t)
    (pin verify_provenance raise_on_fail lock_if_missing : bool)
    : M OS CheckResult.t :=
  present ← path_exists (lockfile self);
  (if lock_if_missing && negb present
   then lock self pin verify_provenance ≫= λ _, mret ()
   else mret ());;
  check self raise_on_fail.

End methods.
End MCPTrustGuard.

(** ** [langchain_mcptrust/server.py]: class [TrustedMCPServer] *)

Module TrustedMCPServer.

Record t := mk {
  mcp : MCPTrust.t;
  server_command : option string;
  server_argv : option (list string);
  lockfile : string;
  preset : string }.

(** [TrustedMCPServer(mcp, server_command=None, server_argv=None,
    lockfile="mcp-lock.json", preset="baseline")] stores its arguments. *)
Definition __init__ (mcp : MCPTrust.t)
    (server_command : option string) (server_argv : option (list string))
    (lockfile preset : string) : t :=
  mk mcp server_command server_argv lockfile preset.

Section methods.
Context `{Platform OS}.

Definition lock (self : t) (pin verify_provenance : bool)
    (timeout : option Z)
    (log : option LogConfig.t) (receipt : option ReceiptConfig.t)
    : M OS LockResult.t :=
  MCPTrust.lock (mcp self) (server_command self) (server_argv self)
    (lockfile self) pin verify_provenance timeout log receipt.

Definition check (self : t) (timeout : option Z)
    (log : option LogConfig.t) (receipt : option ReceiptConfig.t)
    (raise_on_fail : bool) : M OS CheckResult.t :=
  MCPTrust.check (mcp self) (server_command self) (server_argv self)
    (lockfile self) (preset self) timeout log receipt raise_on_fail.

Definition run (self : t) (require_provenance dry_run : bool)
    (bin_name : option string) (timeout : option Z)
    (log : option LogConfig.t) (receipt : option ReceiptConfig.t)
    (raise_on_fail : bool) : M OS RunResult.t :=
  MCPTrust.run (mcp self) (lockfile self) require_provenance dry_run
    bin_name timeout log receipt raise_on_fail.

End methods.
End TrustedMCPServer.

(** ** A scripted machine

    The machine of the test suite: a fixed environment and search path, a
    set of existing files, and child processes that answer from a script,
    one reply per spawn (the [side_effect] of the [subprocess.run] mock). *)

Module Scripted.

Record os := mk {
  env : gmap string string;
  on_path : gmap string string;
  files : gset string;
  replies : list (string + CompletedProcess.t) }.

Definition run_child (argv : list string) (timeout : option Z) (o : os)
    : (string + CompletedProcess.t) * os :=
  match replies o with
  | [] => (inl "OSError", o)
  | r :: rest => (r, mk (env o) (on_path o) (files o) rest)
  end.

Global Instance platform : Platform os := {|
  environ := env;
  shutil_which o cmd := on_path o !! cmd;
  os_path_exists o p := bool_decide (p ∈ files o);
  subprocess_run := run_child |}.

(** A machine with nothing installed, and one with the given replies. *)
Definition bare : os := mk ∅ ∅ ∅ [].
Definition scripted (rs : list (string + CompletedProcess.t)) : os :=
  mk ∅ ∅ ∅ rs.

Definition exited (code : Z) (out err : string)
    : string + CompletedProcess.t :=
  inr (CompletedProcess.mk code out err).

Definition start (o : os) : world os := World o [].

End Scripted.

(** ** Vocabulary of the specification *)

(** The keyword defaults of the signatures in [cli.py]. *)
Module Defaults.
Definition lockfile : string := "mcp-lock.json".
Definition preset : string := "baseline".
Definition pin : bool := true.
Definition verify_provenance : bool := false.
Definition check_raise_on_fail : bool := false.
Definition run_raise_on_fail : bool := true.
End Defaults.

(** The argument vectors as the specification writes them. *)
Module Spec.

Definition log_flags (log : option LogConfig.t) : list string :=
  match log with
  | Some l =>
      ["--log-format"; LogConfig.format l;
       "--log-level"; LogConfig.level l;
       "--log-output"; LogConfig.output l]
  | None => []
  end.

Definition receipt_flags (receipt : option ReceiptConfig.t) : list string :=
  match receipt with
  | Some r =>
      ["--receipt"; ReceiptConfig.path r;
       "--receipt-mode"; ReceiptConfig.mode r]
  | None => []
  end.

Definition when (b : bool) (flag : string) : list string :=
  if b then [flag] else [].

Definition lock_argv (flags : list string) (lockfile : string)
    (pin verify_provenance : bool) (tokens : list string) : list string :=
  ["lock"] ++ flags ++ ["--output"; lockfile] ++ when pin "--pin"
    ++ when verify_provenance "--verify-provenance" ++ ["--"] ++ tokens.

Definition diff_argv (lockfile : string) (flags tokens : list string)
    : list string :=
  ["diff"; "--lockfile"; lockfile] ++ flags ++ ["--"] ++ tokens.

Definition policy_argv (preset lockfile : string)
    (flags tokens : list string) : list string :=
  ["policy"; "check"; "--preset"; preset; "--lockfile"; lockfile]
    ++ flags ++ ["--"] ++ tokens.

Definition run_argv (lockfile : string) (flags : list string)
    (require_provenance dry_run : bool) (bin_name : option string)
    : list string :=
  ["run"; "--lock"; lockfile] ++ flags
    ++ [if require_provenance then "--require-provenance"
        else "--require-provenance=false"]
    ++ when dry_run "--dry-run"
    ++ (if Py.truthy_str bin_name then ["--bin"; default "" bin_name]
        else []).

(** The names of the three logging flags. *)
Definition log_flag_names : list string :=
  ["--log-format"; "--log-level"; "--log-output"].

(** The failure [_run] raises for a child that exited as [result]. *)
Definition failure (self : MCPTrust.t) (argv : list string)
    (result : CompletedProcess.t) : MCPTrustCommandError.t :=
  MCPTrustCommandError.mk
    ("mcptrust exited with code " +:+
       Py.str_int (CompletedProcess.returncode result))
    (CompletedProcess.returncode result)
    (MCPTrust.bin_path self :: argv)
    (CompletedProcess.stdout result)
    (CompletedProcess.stderr result).

Definition exit_ok (result : CompletedProcess.t) : bool :=
  (CompletedProcess.returncode result =? 0)%Z.

(** What [_run] makes of the reply of [subprocess.run]. *)
Definition child_outcome (self : MCPTrust.t) (argv : list string)
    (reply : string + CompletedProcess.t)
    : exception + CompletedProcess.t :=
  match reply with
  | inl name => inl (SubprocessError name)
  | inr result =>
      if exit_ok result then inr result
      else inl (CommandError (failure self argv result))
  end.

(** What [check] makes of its two children once both have exited. *)
Definition verdict (self : MCPTrust.t) (diff_argv policy_argv : list string)
    (diff policy : CompletedProcess.t) (raise_on_fail : bool)
    : exception + CheckResult.t :=
  let passed := exit_ok diff && exit_ok policy in
  if raise_on_fail && negb passed then
    inl (CommandError
           (if exit_ok diff then failure self policy_argv policy
            else failure self diff_argv diff))
  else
    inr (CheckResult.mk passed
           (CompletedProcess.stdout diff) (CompletedProcess.stderr diff)
           (CompletedProcess.stdout policy) (CompletedProcess.stderr policy)).


(** The call ended in the exception [e] and left the world as it was: no
    child process was spawned. *)
Definition raised_before_spawn {OS A} (r : (exception + A) * world OS)
    (w : world OS) (e : exception) : Prop :=
  r = (inl e, w).

(** An argument vector that ends with the separator and the tokens. *)
Definition after_separator (tokens argv : list string) : Prop :=
  ∃ before, argv = before ++ ["--"] ++ tokens.

(** Between [w] and [w'] at least one child process was spawned, and each
    one got the tokens after the separator. *)
Definition uses_tokens {OS} (w w' : world OS) (tokens : list string)
    : Prop :=
  ∃ argv rest,
    spawned w' = spawned w ++ argv :: rest
    ∧ Forall (after_separator tokens) (argv :: rest).

(** The call through an adapter went by the token sequence: it spawned,
    every child got the tokens after the separator, and no usage error
    was raised. *)
Definition token_sequence_wins {OS A} (w : world OS)
    (r : (exception + A) * world OS) (tokens : list string) : Prop :=
  uses_tokens w r.2 tokens ∧ ∀ msg, r.1 ≠ inl (ValueError msg).

(** No element of [argv] is the name of a logging flag. *)
Definition free_of_log_flags (argv : list string) : Prop :=
  Forall (λ x, x ∉ log_flag_names) argv.

(** [s] occurs in [t]. *)
Definition occurs_in (s t : string) : Prop :=
  ∃ before after, t = before +:+ s +:+ after.

(** A shell word as one writes it in a command string: bare, between
    single quotes, or between double quotes. *)
Inductive word :=
| Bare (text : string)
| Single (text : string)
| Double (text : string).

Definition text (w : word) : string :=
  match w with Bare t | Single t | Double t => t end.

Definition in_quotes (w : word) : bool :=
  match w with Bare _ => false | _ => true end.

Definition written (w : word) : string :=
  match w with
  | Bare t => t
  | Single t => String Py.squote (t +:+ String Py.squote "")
  | Double t => String Py.dquote (t +:+ String Py.dquote "")
  end.

Fixpoint all_chars (p : ascii → bool) (s : string) : bool :=
  match s with
  | EmptyString => true
  | String c rest => p c && all_chars p rest
  end.

(** A character that [repr] shows as it is, whatever the quote. *)
Definition plain (c : ascii) : bool :=
  Py.isprintable c
  && negb (Ascii.eqb c Py.squote || Ascii.eqb c Py.dquote
           || Ascii.eqb c Py.backslash).

(** A bare word is not empty and has no blank, quote or backslash; a
    single-quoted text has no single quote; a double-quoted text has no
    double quote and no backslash. *)
Definition well_written (w : word) : bool :=
  match w with
  | Bare t =>
      Py.nonempty t &&
      all_chars (λ c, negb (shlex.whitespace c || shlex.quotes c
                            || shlex.escape c)) t
  | Single t => all_chars (λ c, negb (Ascii.eqb c Py.squote)) t
  | Double t =>
      all_chars (λ c, negb (Ascii.eqb c Py.dquote || shlex.escape c)) t
  end.

End Spec.

(** ** More of the client and of the adapters *)

(** [str.strip()], on code points below 256. *)
Module PyText.

(** [str.isspace] of one character: the ASCII blanks and separators, NEL
    and the no-break space. *)
Definition isspace (c : ascii) : bool :=
  let n := N_of_ascii c in
  ((9 <=? n) && (n <=? 13) || (28 <=? n) && (n <=? 32)
   || (n =? 133) || (n =? 160))%N.

Fixpoint lstrip (s : string) : string :=
  match s with
  | EmptyString => ""
  | String c rest => if isspace c then lstrip rest else s
  end.

Fixpoint rstrip (s : string) : string :=
  match s with
  | EmptyString => ""
  | String c rest =>
      let kept := rstrip rest in
      if isspace c && negb (Py.nonempty kept) then "" else String c kept
  end.

Definition strip (s : string) : string := rstrip (lstrip s).

End PyText.

(** [MCPTrust.version()] *)
Module MCPTrustVersion.
Section methods.
Context `{Platform OS}.

Definition version (self : MCPTrust.t) : M OS string :=
  result ← MCPTrust._run self ["--version"] None;
  mret (PyText.strip (CompletedProcess.stdout result)).

End methods.
End MCPTrustVersion.

(** Keyword arguments passed on as a dictionary: a keyword that is left out
    takes the default of the signature it reaches.  Only the keywords of
    that signature are represented. *)
Module Kwargs.

(** The keywords of [MCPTrustGuard.ensure]. *)
Record ensure := Ensure {
  pin : option bool;
  verify_provenance : option bool;
  raise_on_fail : option bool;
  lock_if_missing : option bool }.

Definition no_ensure : ensure := Ensure None None None None.

(** The keywords of the constructor of [MCPTrustGuard]. *)
Record guard := Guard {
  mcp : option MCPTrust.t;
  server_command : option string;
  server_argv : option (list string);
  lockfile : option string;
  preset : option string;
  log : option LogConfig.t;
  receipt : option ReceiptConfig.t }.

End Kwargs.

(** ** [autogen_mcptrust/hooks.py] *)

Module autogen_hooks.
Section hooks.
Context `{Platform OS}.

(** [guard.ensure] called with the keyword arguments [ensure_kwargs]. *)
Definition call_ensure (guard : MCPTrustGuard.t) (kw : Kwargs.ensure)
    : M OS CheckResult.t :=
  MCPTrustGuard.ensure guard
    (default true (Kwargs.pin kw))
    (default false (Kwargs.verify_provenance kw))
    (default true (Kwargs.raise_on_fail kw))
    (default true (Kwargs.lock_if_missing kw)).

(** [MCPTrustGuard] called with the keyword arguments [kwargs]. *)
Definition call_guard (kw : Kwargs.guard) : M OS MCPTrustGuard.t :=
  MCPTrustGuard.__init__ (Kwargs.mcp kw)
    (Kwargs.server_command kw) (Kwargs.server_argv kw)
    (default "mcp-lock.json" (Kwargs.lockfile kw))
    (default "baseline" (Kwargs.preset kw))
    (Kwargs.log kw) (Kwargs.receipt kw).

Definition ensure_trusted_mcp_server (kwargs : Kwargs.guard)
    : M OS CheckResult.t :=
  guard ← call_guard kwargs;
  call_ensure guard Kwargs.no_ensure.

(** [before_chat_callback guard ensure_kwargs] is [callback], which takes
    any arguments and returns [None]. *)
Definition before_chat_callback {Args : Type}
    (guard : MCPTrustGuard.t) (ensure_kwargs : Kwargs.ensure)
    : Args → M OS () :=
  λ _, call_ensure guard ensure_kwargs;; mret ().

(** [wrap_runner fn guard ensure_kwargs] is [wrapper]. *)
Definition wrap_runner {Args R : Type} (fn : Args → M OS R)
    (guard : MCPTrustGuard.t) (ensure_kwargs : Kwargs.ensure)
    : Args → M OS R :=
  λ args, call_ensure guard ensure_kwargs;; fn args.

End hooks.
End autogen_hooks.

(** ** [crewai_mcptrust/hooks.py]

    The guard of this package is the class of [crewai_mcptrust/guard.py];
    the hooks use its constructor and its [ensure] only, which are
    parameters here. *)

Module crewai_hooks.
Section hooks.
Context {OS Guard GuardKwargs EnsureKwargs : Type}.
Variable MCPTrustGuard : GuardKwargs → M OS Guard.
Variable ensure : Guard → EnsureKwargs → M OS CheckResult.t.
Variable no_kwargs : EnsureKwargs.

Definition ensure_trusted_mcp_server (kwargs : GuardKwargs)
    : M OS CheckResult.t :=
  guard ← MCPTrustGuard kwargs;
  ensure guard no_kwargs.

Definition before_kickoff_callback {Args : Type}
    (guard : Guard) (ensure_kwargs : EnsureKwargs) : Args → M OS () :=
  λ _, ensure guard ensure_kwargs;; mret ().

Definition wrap_kickoff {Args R : Type} (kickoff_fn : Args → M OS R)
    (guard : Guard) (ensure_kwargs : EnsureKwargs) : Args → M OS R :=
  λ args, ensure guard ensure_kwargs;; kickoff_fn args.

End hooks.
End crewai_hooks.

(** ** [langchain_mcptrust/tools.py] *)

Module tools.

(** The objects a schema is made of: [None], booleans, integers, strings,
    lists, dictionaries with string keys, and any other object, of which
    only the truth value matters here. *)
#[local] Set Warnings "-register-all".
Inductive value :=
| VNone
| VBool (b : bool)
| VInt (n : Z)
| VStr (s : string)
| VList (items : list value)
| VDict (entries : gmap string value)
| VOther (truth : bool).
#[local] Set Warnings "register-all".

(** Truth value of an object. *)
Definition truthy (v : value) : bool :=
  match v with
  | VNone => false
  | VBool b => b
  | VInt n => negb (n =? 0)%Z
  | VStr s => Py.nonempty s
  | VList items => match items with [] => false | _ :: _ => true end
  | VDict entries => negb (bool_decide (size entries = 0))
  | VOther truth => truth
  end.

(** [d.get(key, fallback)] *)
Definition get (d : gmap string value) (key : string) (fallback : value)
    : value :=
  default fallback (d !! key).

(** The body of the loop of [tools_from_schema], from [tools] on, with the
    list built so far. *)
Fixpoint extract (tools : list value) (result : list value) : list value :=
  match tools with
  | [] => result
  | VDict tool :: tools =>
      let name := get tool "name" VNone in
      if negb (truthy name) then extract tools result
      else
        extract tools
          (result ++ [VDict
             {[ "name" := name;
                "description" := get tool "description" (VStr "");
                "input_schema" :=
                  get tool "inputSchema"
                    (get tool "input_schema" (VDict ∅)) ]}])
  | _ :: tools => extract tools result
  end.

Definition tools_from_schema (schema : value) : list value :=
  match schema with
  | VDict schema =>
      match get schema "tools" (VList []) with
      | VList tools => extract tools []
      | _ => []
      end
  | _ => []
  end.

Definition create_placeholder_tool (name description : string) : value :=
  VDict
    {[ "name" := VStr name;
       "description" := VStr description;
       "input_schema" :=
         VDict {[ "type" := VStr "object"; "properties" := VDict ∅ ]};
       "is_placeholder" := VBool true ]}.

End tools.

(** More vocabulary for the properties. *)
Module SpecMore.

(** The text starts, and ends, with a character that is no whitespace. *)
Definition starts_nonspace (s : string) : bool :=
  match s with
  | EmptyString => false
  | String c _ => negb (PyText.isspace c)
  end.

Fixpoint ends_nonspace (s : string) : bool :=
  match s with
  | EmptyString => false
  | String c EmptyString => negb (PyText.isspace c)
  | String _ rest => ends_nonspace rest
  end.

(** The keys of an extracted tool. *)
Definition tool_keys : gset string :=
  {[ "name"; "description"; "input_schema" ]}.

(** An extracted tool: a dictionary with the three keys and a name that is
    true. *)
Definition is_extracted_tool (v : tools.value) : Prop :=
  match v with
  | tools.VDict d =>
      dom d = tool_keys ∧ tools.truthy (tools.get d "name" tools.VNone) = true
  | _ => False
  end.

(** What one element of the list of tools gives: nothing when it is no
    dictionary or has no name that is true, else its three fields. *)
Definition entry_of (v : tools.value) : option tools.value :=
  match v with
  | tools.VDict tool =>
      if tools.truthy (tools.get tool "name" tools.VNone) then
        Some (tools.VDict
          {[ "name" := tools.get tool "name" tools.VNone;
             "description" := tools.get tool "description" (tools.VStr "");
             "input_schema" :=
               match tool !! "inputSchema" with
               | Some schema => schema
               | None =>
                   match tool !! "input_schema" with
                   | Some schema => schema
                   | None => tools.VDict ∅
                   end
               end ]})
      else None
  | _ => None
  end.

(** A schema with the given list of tools and nothing else. *)
Definition schema_of (tool_list : list tools.value) : tools.value :=
  tools.VDict {[ "tools" := tools.VList tool_list ]}.

(** A token as it is written in a command string: pieces, each bare or in
    quotes, one right after the other; and the text it stands for. *)
Definition token_written (pieces : list Spec.word) : string :=
  foldr (λ piece s, Spec.written piece +:+ s) "" pieces.

Definition token_text (pieces : list Spec.word) : string :=
  foldr (λ piece s, Spec.text piece +:+ s) "" pieces.

(** A command string: each token after its blanks, and the blanks at the
    end. *)
Fixpoint line (tokens : list (string * list Spec.word)) (trailing : string)
    : string :=
  match tokens with
  | [] => trailing
  | (blanks, pieces) :: rest =>
      blanks +:+ token_written pieces +:+ line rest trailing
  end.

(** The blanks are whitespace and each token has a piece, all of them well
    written. *)
Definition token_ok (token : string * list Spec.word) : Prop :=
  Spec.all_chars shlex.whitespace token.1 = true
  ∧ token.2 ≠ []
  ∧ Forall (λ piece, Spec.well_written piece = true) token.2.

(** A token after another one is set off by a blank. *)
Definition set_off (token : string * list Spec.word) : Prop :=
  token.1 ≠ "".

End SpecMore.

(** * Properties *)

(** ** Strings *)

Lemma append_nil_r (s : string) : s +:+ "" = s.
Proof. induction s as [|c s IH]; simpl; [done | by rewrite IH]. Qed.

Lemma append_cons (c : ascii) (s1 s2 : string) :
  String c s1 +:+ s2 = String c (s1 +:+ s2).
Proof. done. Qed.

Lemma append_assoc (s1 s2 s3 : string) :
  (s1 +:+ s2) +:+ s3 = s1 +:+ (s2 +:+ s3).
Proof. induction s1 as [|c s1 IH]; simpl; [done | by rewrite IH]. Qed.

Lemma push_append (token : string) (c : ascii) (s : string) :
  shlex.push token c +:+ s = token +:+ String c s.
Proof. unfold shlex.push. by rewrite append_assoc. Qed.

Lemma length_append (s1 s2 : string) :
  String.length (s1 +:+ s2) = String.length s1 + String.length s2.
Proof. induction s1 as [|c s1 IH]; simpl; [done | by rewrite IH]. Qed.

(** ** [shlex.split] keeps a quoted text in one token *)

Section shlex_words.
Import shlex Spec.

(** Inside a word, characters that are neither blank, quote nor backslash
    are added to the token. *)
Lemma read_bare (t : string) :
  ∀ escapedstate quoted token rest,
    all_chars (λ c, negb (whitespace c || quotes c || escape c)) t = true →
    read InWord escapedstate quoted token (t +:+ rest) =
    read InWord escapedstate quoted (token +:+ t) rest.
Proof.
  induction t as [|c t IH]; intros esc quoted token rest Hall.
  - by rewrite append_nil_r.
  - cbn [all_chars] in Hall. apply andb_prop in Hall as [Hc Ht].
    apply negb_true_iff in Hc.
    apply orb_false_elim in Hc as [Hc Hesc].
    apply orb_false_elim in Hc as [Hws Hq].
    rewrite <- (push_append token c t), <- (IH _ _ _ _ Ht).
    simpl. by rewrite Hws, Hq, Hesc.
Qed.

(** Between quotes [q], a character that neither closes the quotation nor
    starts an escape is added to the token; the closing quote resumes the
    word, which counts as quoted from then on. *)
Lemma read_quoted (q : ascii) (t : string) :
  ∀ escapedstate quoted token rest,
    all_chars
      (λ c, negb (Ascii.eqb c q) && negb (escape c && escapedquotes q)) t
      = true →
    read (InQuote q) escapedstate quoted token (t +:+ String q rest) =
    read InWord escapedstate true (token +:+ t) rest.
Proof.
  induction t as [|c t IH]; intros esc quoted token rest Hall.
  - rewrite append_nil_r. simpl. by rewrite Ascii.eqb_refl.
  - cbn [all_chars] in Hall. apply andb_prop in Hall as [Hc Ht].
    apply andb_prop in Hc as [Hq He].
    apply negb_true_iff in Hq, He.
    rewrite <- (push_append token c t), <- (IH esc true _ _ Ht).
    simpl. by rewrite Hq, He.
Qed.

Lemma read_word (w : word) (rest : string) :
  well_written w = true →
  read Blank Blank false "" (written w +:+ rest) =
  read InWord Blank (in_quotes w) (text w) rest
  ∧ Py.nonempty (text w) || in_quotes w = true.
Proof.
  destruct w as [t|t|t]; cbn [well_written written text in_quotes].
  - intros [Hne Hall]%andb_prop. destruct t as [|c t]; [done|].
    cbn [all_chars] in Hall. apply andb_prop in Hall as [Hc Ht].
    apply negb_true_iff in Hc.
    apply orb_false_elim in Hc as [Hc Hesc].
    apply orb_false_elim in Hc as [Hws Hq].
    split; [|done]. simpl. rewrite Hws, Hesc, Hq.
    by rewrite (read_bare t _ _ _ _ Ht).
  - intros Hall. split; [|by rewrite orb_true_r].
    rewrite append_cons, append_assoc, append_cons.
    change (read Blank Blank false "" (String Py.squote ?s))
      with (read (InQuote Py.squote) Blank false "" s).
    apply read_quoted. clear rest. induction t as [|c t IH]; [done|].
    cbn [all_chars] in *. apply andb_prop in Hall as [Hc Ht].
    rewrite Hc, (IH Ht). by rewrite andb_false_r.
  - intros Hall. split; [|by rewrite orb_true_r].
    rewrite append_cons, append_assoc, append_cons.
    change (read Blank Blank false "" (String Py.dquote ?s))
      with (read (InQuote Py.dquote) Blank false "" s).
    apply read_quoted. clear rest. induction t as [|c t IH]; [done|].
    cbn [all_chars] in *. apply andb_prop in Hall as [Hc Ht].
    rewrite (IH Ht), andb_true_r. apply negb_true_iff in Hc.
    apply orb_false_elim in Hc as [-> ->]. done.
Qed.

(** Words written one after the other, a blank in between, come back as
    their texts: a quoted text with blanks in it stays one token. *)
Lemma split_words (ws : list word) :
  Forall (λ w, well_written w = true) ws →
  split (Py.join " " (written <$> ws)) = inr (text <$> ws).
Proof.
  unfold split. induction ws as [|w ws IH]; intros Hws; [done|].
  apply Forall_cons in Hws as [Hw Hws]. specialize (IH Hws).
  destruct ws as [|w' ws].
  - cbn [fmap list_fmap Py.join].
    rewrite <- (append_nil_r (written w)).
    destruct (read_word w "" Hw) as [-> Hq].
    cbn [read]. unfold emit.
    apply orb_true_iff in Hq as [-> | ->]; by rewrite ?andb_false_r.
  - change (Py.join " " (written <$> w :: w' :: ws))
      with (written w +:+ String " " (Py.join " " (written <$> w' :: ws))).
    destruct (read_word w (String " " (Py.join " " (written <$> w' :: ws))) Hw)
      as [-> Hq].
    cbn [read]. change (whitespace " ") with true. cbn match.
    rewrite Hq, IH. unfold emit.
    apply orb_true_iff in Hq as [-> | ->]; by rewrite ?andb_false_r.
Qed.
End shlex_words.

(** ** The operations of [MCPTrust], one child process at a time *)

Section operations.
Context `{Platform OS}.
Implicit Types (self : MCPTrust.t) (w : world OS) (timeout : option Z).
Implicit Types (log : option LogConfig.t) (receipt : option ReceiptConfig.t).

Lemma build_common_flags_eq log receipt :
  MCPTrust._build_common_flags log receipt
  = Spec.log_flags log ++ Spec.receipt_flags receipt.
Proof. by destruct log, receipt. Qed.

(** [_run] spawns one child, whatever comes of it. *)
Lemma _run_eq self argv timeout w reply os :
  subprocess_run (MCPTrust.bin_path self :: argv) timeout (host w)
    = (reply, os) →
  MCPTrust._run self argv timeout w
  = (Spec.child_outcome self argv reply,
     World os (spawned w ++ [MCPTrust.bin_path self :: argv])).
Proof.
  intros Hrun.
  unfold MCPTrust._run, mbind, M_bind, spawn. cbn [app]. rewrite Hrun.
  destruct reply as [name|result]; [done|].
  unfold Spec.child_outcome, Spec.exit_ok.
  by destruct (CompletedProcess.returncode result =? 0)%Z.
Qed.

(** A command that does not parse ends [lock] before any child runs. *)
Lemma lock_usage_error self sc sa lockfile pin vp timeout log receipt w e :
  MCPTrust._parse_server_command sc sa = inl e →
  MCPTrust.lock self sc sa lockfile pin vp timeout log receipt w
  = (inl e, w).
Proof. intros Hparse. unfold MCPTrust.lock, mbind, M_bind, lift. by rewrite Hparse. Qed.

Lemma lock_eq self sc sa lockfile pin vp timeout log receipt w
    tokens reply os :
  let argv :=
    Spec.lock_argv (Spec.log_flags log ++ Spec.receipt_flags receipt)
      lockfile pin vp tokens in
  MCPTrust._parse_server_command sc sa = inr tokens →
  subprocess_run (MCPTrust.bin_path self :: argv) timeout (host w)
    = (reply, os) →
  MCPTrust.lock self sc sa lockfile pin vp timeout log receipt w
  = (match Spec.child_outcome self argv reply with
     | inl e => inl e
     | inr result =>
         inr (LockResult.mk lockfile
                (CompletedProcess.stdout result)
                (CompletedProcess.stderr result))
     end,
     World os (spawned w ++ [MCPTrust.bin_path self :: argv])).
Proof.
  intros argv Hparse Hrun.
  unfold MCPTrust.lock, mbind at 1, M_bind at 1, lift. rewrite Hparse.
  rewrite build_common_flags_eq.
  assert (Hargv :
    (let argv0 := ["lock"] in
     let argv0 := argv0 ++ Spec.log_flags log ++ Spec.receipt_flags receipt in
     let argv0 := argv0 ++ ["--output"; lockfile] in
     let argv0 := if pin then argv0 ++ ["--pin"] else argv0 in
     let argv0 := if vp then argv0 ++ ["--verify-provenance"] else argv0 in
     let argv0 := argv0 ++ ["--"] in
     argv0 ++ tokens) = argv).
  { unfold argv, Spec.lock_argv, Spec.when.
    destruct pin, vp; cbn zeta; by rewrite <- ?(assoc_L (++)). }
  cbn zeta in Hargv |- *. rewrite Hargv.
  unfold mbind, M_bind. rewrite (_run_eq _ _ _ _ _ _ Hrun).
  by destruct (Spec.child_outcome self argv reply).
Qed.

Lemma check_usage_error self sc sa lockfile preset timeout log receipt
    raise_on_fail w e :
  MCPTrust._parse_server_command sc sa = inl e →
  MCPTrust.check self sc sa lockfile preset timeout log receipt
    raise_on_fail w
  = (inl e, w).
Proof.
  intros Hparse. unfold MCPTrust.check, mbind, M_bind, lift.
  by rewrite Hparse.
Qed.

(** When [subprocess.run] itself raises in the diff step, nothing
    catches it and the policy step is not reached. *)
Lemma check_diff_raised self sc sa lockfile preset timeout log receipt
    raise_on_fail w tokens name os :
  let flags := Spec.log_flags log ++ Spec.receipt_flags receipt in
  let diff_argv := Spec.diff_argv lockfile flags tokens in
  MCPTrust._parse_server_command sc sa = inr tokens →
  subprocess_run (MCPTrust.bin_path self :: diff_argv) timeout (host w)
    = (inl name, os) →
  MCPTrust.check self sc sa lockfile preset timeout log receipt
    raise_on_fail w
  = (inl (SubprocessError name),
     World os (spawned w ++ [MCPTrust.bin_path self :: diff_argv])).
Proof.
  intros flags diff_argv Hparse Hdiff.
  unfold MCPTrust.check, mbind at 1, M_bind at 1, lift. rewrite Hparse.
  rewrite build_common_flags_eq. fold flags. cbn zeta.
  replace (((["diff"; "--lockfile"; lockfile] ++ flags) ++ ["--"]) ++ tokens)
    with diff_argv
    by (unfold diff_argv, Spec.diff_argv; by rewrite <- !(assoc_L (++))).
  unfold mbind at 1, M_bind at 1, try_except_CommandError.
  unfold mbind at 1, M_bind at 1.
  by rewrite (_run_eq _ _ _ _ _ _ Hdiff).
Qed.

Lemma check_eq self sc sa lockfile preset timeout log receipt
    raise_on_fail w tokens diff os1 reply os2 :
  let flags := Spec.log_flags log ++ Spec.receipt_flags receipt in
  let diff_argv := Spec.diff_argv lockfile flags tokens in
  let policy_argv := Spec.policy_argv preset lockfile flags tokens in
  MCPTrust._parse_server_command sc sa = inr tokens →
  subprocess_run (MCPTrust.bin_path self :: diff_argv) timeout (host w)
    = (inr diff, os1) →
  subprocess_run (MCPTrust.bin_path self :: policy_argv) timeout os1
    = (reply, os2) →
  MCPTrust.check self sc sa lockfile preset timeout log receipt
    raise_on_fail w
  = (match reply with
     | inl name => inl (SubprocessError name)
     | inr policy =>
         Spec.verdict self diff_argv policy_argv diff policy raise_on_fail
     end,
     World os2 (spawned w ++ [MCPTrust.bin_path self :: diff_argv;
                              MCPTrust.bin_path self :: policy_argv])).
Proof.
  intros flags diff_argv policy_argv Hparse Hdiff Hpolicy.
  unfold MCPTrust.check, mbind at 1, M_bind at 1, lift. rewrite Hparse.
  rewrite build_common_flags_eq. fold flags. cbn zeta.
  replace (((["diff"; "--lockfile"; lockfile] ++ flags) ++ ["--"]) ++ tokens)
    with diff_argv
    by (unfold diff_argv, Spec.diff_argv; by rewrite <- !(assoc_L (++))).
  replace (((["policy"; "check"; "--preset"; preset; "--lockfile"; lockfile]
              ++ flags) ++ ["--"]) ++ tokens)
    with policy_argv
    by (unfold policy_argv, Spec.policy_argv; by rewrite <- !(assoc_L (++))).
  unfold mbind at 1, M_bind at 1, try_except_CommandError.
  unfold mbind at 1, M_bind at 1.
  rewrite (_run_eq _ _ _ _ _ _ Hdiff).
  assert (Hlog : ∀ l a b, (l ++ [a]) ++ [b] = l ++ [a; b] :> list (list string))
    by (intros; by rewrite <- (assoc_L (++))).
  unfold Spec.child_outcome at 1.
  destruct (Spec.exit_ok diff) eqn:Hd; cbn [mret M_ret].
  - unfold mbind at 1, M_bind at 1, try_except_CommandError.
    unfold mbind at 1, M_bind at 1. cbn [host spawned].
    rewrite (_run_eq _ _ _ (World os1 _) _ _ Hpolicy). cbn [spawned].
    rewrite Hlog. unfold Spec.child_outcome, Spec.verdict. rewrite Hd.
    destruct reply as [name|policy]; [done|].
    destruct (Spec.exit_ok policy) eqn:Hp; cbn [mret M_ret];
      by destruct raise_on_fail.
  - unfold mbind at 1, M_bind at 1, try_except_CommandError.
    unfold mbind at 1, M_bind at 1. cbn [host spawned].
    rewrite (_run_eq _ _ _ (World os1 _) _ _ Hpolicy). cbn [spawned].
    rewrite Hlog. unfold Spec.child_outcome, Spec.verdict. rewrite Hd.
    destruct reply as [name|policy]; [done|].
    destruct (Spec.exit_ok policy) eqn:Hp; cbn [mret M_ret];
      by destruct raise_on_fail.
Qed.

Lemma run_eq self lockfile require_provenance dry_run bin_name timeout
    log receipt raise_on_fail w reply os :
  let argv :=
    Spec.run_argv lockfile (Spec.log_flags log ++ Spec.receipt_flags receipt)
      require_provenance dry_run bin_name in
  subprocess_run (MCPTrust.bin_path self :: argv) timeout (host w)
    = (reply, os) →
  MCPTrust.run self lockfile require_provenance dry_run bin_name timeout
    log receipt raise_on_fail w
  = (match reply with
     | inl name => inl (SubprocessError name)
     | inr result =>
         if Spec.exit_ok result then
           inr (RunResult.mk 0
                  (CompletedProcess.stdout result)
                  (CompletedProcess.stderr result))
         else if raise_on_fail then
           inl (CommandError (Spec.failure self argv result))
         else
           inr (RunResult.mk
                  (CompletedProcess.returncode result)
                  (CompletedProcess.stdout result)
                  (CompletedProcess.stderr result))
     end,
     World os (spawned w ++ [MCPTrust.bin_path self :: argv])).
Proof.
  intros argv Hrun.
  unfold MCPTrust.run. rewrite build_common_flags_eq.
  assert (Hargv :
    (let argv0 := ["run"; "--lock"; lockfile] in
     let argv0 := argv0 ++ Spec.log_flags log ++ Spec.receipt_flags receipt in
     let argv0 :=
       if require_provenance then argv0 ++ ["--require-provenance"]
       else argv0 ++ ["--require-provenance=false"] in
     let argv0 := if dry_run then argv0 ++ ["--dry-run"] else argv0 in
     if Py.truthy_str bin_name
     then argv0 ++ ["--bin"; default "" bin_name] else argv0) = argv).
  { unfold argv, Spec.run_argv, Spec.when.
    destruct require_provenance, dry_run, (Py.truthy_str bin_name);
      cbn zeta; rewrite <- ?(assoc_L (++)), ?app_nil_r; done. }
  cbn zeta in Hargv |- *. rewrite Hargv.
  unfold try_except_CommandError, mbind, M_bind.
  rewrite (_run_eq _ _ _ _ _ _ Hrun). unfold Spec.child_outcome.
  destruct reply as [name|result]; [done|].
  destruct (Spec.exit_ok result); [done|]. by destruct raise_on_fail.
Qed.



End operations.

(** ** Which form of the server command is used *)

Ltac list_assoc :=
  repeat first [ progress cbn [app] | rewrite <- (assoc_L (++)) ]; done.

Section server_command.
Context `{Platform OS}.
Implicit Types (self : MCPTrust.t) (w : world OS) (timeout : option Z).
Implicit Types (log : option LogConfig.t) (receipt : option ReceiptConfig.t).

Lemma parse_both sc sa :
  Py.truthy_str sc = true → Py.truthy_list sa = true →
  MCPTrust._parse_server_command sc sa
  = inl (ValueError "Specify server_command OR server_argv, not both").
Proof. unfold MCPTrust._parse_server_command. by intros -> ->. Qed.

Lemma parse_neither sc sa :
  Py.truthy_str sc = false → Py.truthy_list sa = false →
  MCPTrust._parse_server_command sc sa
  = inl (ValueError "Must specify server_command or server_argv").
Proof. unfold MCPTrust._parse_server_command. by intros -> ->. Qed.

Lemma parse_tokens sc tokens :
  Py.truthy_str sc = false → tokens ≠ [] →
  MCPTrust._parse_server_command sc (Some tokens) = inr tokens.
Proof.
  unfold MCPTrust._parse_server_command. intros -> Hne.
  by destruct tokens.
Qed.

Lemma parse_string s sa :
  s ≠ "" → Py.truthy_list sa = false →
  MCPTrust._parse_server_command (Some s) sa
  = match shlex.split s with
    | inl msg => inl (ValueError msg)
    | inr tokens => inr tokens
    end.
Proof.
  unfold MCPTrust._parse_server_command. intros Hne ->.
  by destruct s.
Qed.

Lemma lock_argv_after_separator flags lockfile pin vp tokens bin :
  Spec.after_separator tokens
    (bin :: Spec.lock_argv flags lockfile pin vp tokens).
Proof.
  exists (bin :: ["lock"] ++ flags ++ ["--output"; lockfile]
            ++ Spec.when pin "--pin"
            ++ Spec.when vp "--verify-provenance").
  unfold Spec.lock_argv. list_assoc.
Qed.

Lemma diff_argv_after_separator lockfile flags tokens bin :
  Spec.after_separator tokens (bin :: Spec.diff_argv lockfile flags tokens).
Proof.
  exists (bin :: ["diff"; "--lockfile"; lockfile] ++ flags).
  unfold Spec.diff_argv. list_assoc.
Qed.

Lemma policy_argv_after_separator preset lockfile flags tokens bin :
  Spec.after_separator tokens
    (bin :: Spec.policy_argv preset lockfile flags tokens).
Proof.
  exists (bin :: ["policy"; "check"; "--preset"; preset;
                  "--lockfile"; lockfile] ++ flags).
  unfold Spec.policy_argv. list_assoc.
Qed.

(** Once the command has parsed, [lock] and [check] spawn, and every
    child gets the tokens after the separator. *)
Lemma lock_uses_tokens self sc sa lockfile pin vp timeout log receipt w
    tokens :
  MCPTrust._parse_server_command sc sa = inr tokens →
  Spec.uses_tokens w
    (MCPTrust.lock self sc sa lockfile pin vp timeout log receipt w).2
    tokens.
Proof.
  intros Hparse.
  destruct (subprocess_run
    (MCPTrust.bin_path self ::
       Spec.lock_argv (Spec.log_flags log ++ Spec.receipt_flags receipt)
         lockfile pin vp tokens) timeout (host w)) as [reply os] eqn:Hrun.
  rewrite (lock_eq _ _ _ _ _ _ _ _ _ _ _ _ _ Hparse Hrun). cbn [snd spawned].
  eexists _, []. split; [done|].
  apply Forall_singleton, lock_argv_after_separator.
Qed.

Lemma check_uses_tokens self sc sa lockfile preset timeout log receipt
    raise_on_fail w tokens :
  MCPTrust._parse_server_command sc sa = inr tokens →
  Spec.uses_tokens w
    (MCPTrust.check self sc sa lockfile preset timeout log receipt
       raise_on_fail w).2
    tokens.
Proof.
  intros Hparse.
  set (flags := Spec.log_flags log ++ Spec.receipt_flags receipt).
  destruct (subprocess_run
    (MCPTrust.bin_path self :: Spec.diff_argv lockfile flags tokens)
    timeout (host w)) as [[name|diff] os1] eqn:Hdiff.
  - rewrite (check_diff_raised _ _ _ _ _ _ _ _ _ _ _ _ _ Hparse Hdiff).
    cbn [snd spawned]. eexists _, []. split; [done|].
    apply Forall_singleton, diff_argv_after_separator.
  - destruct (subprocess_run
      (MCPTrust.bin_path self :: Spec.policy_argv preset lockfile flags tokens)
      timeout os1) as [reply os2] eqn:Hpolicy.
    rewrite (check_eq _ _ _ _ _ _ _ _ _ _ _ _ _ _ _ Hparse Hdiff Hpolicy).
    cbn [snd spawned]. eexists _, [_]. split; [done|].
    repeat apply Forall_cons_2; [ apply diff_argv_after_separator
      | apply policy_argv_after_separator | apply Forall_nil_2 ].
Qed.

Lemma lock_no_usage_error self sc sa lockfile pin vp timeout log receipt w
    tokens msg :
  MCPTrust._parse_server_command sc sa = inr tokens →
  (MCPTrust.lock self sc sa lockfile pin vp timeout log receipt w).1
  ≠ inl (ValueError msg).
Proof.
  intros Hparse.
  destruct (subprocess_run
    (MCPTrust.bin_path self ::
       Spec.lock_argv (Spec.log_flags log ++ Spec.receipt_flags receipt)
         lockfile pin vp tokens) timeout (host w)) as [reply os] eqn:Hrun.
  rewrite (lock_eq _ _ _ _ _ _ _ _ _ _ _ _ _ Hparse Hrun). cbn [fst].
  destruct reply as [name|result]; cbn [Spec.child_outcome]; [done|].
  by destruct (Spec.exit_ok result).
Qed.

Lemma check_no_usage_error self sc sa lockfile preset timeout log receipt
    raise_on_fail w tokens msg :
  MCPTrust._parse_server_command sc sa = inr tokens →
  (MCPTrust.check self sc sa lockfile preset timeout log receipt
     raise_on_fail w).1
  ≠ inl (ValueError msg).
Proof.
  intros Hparse.
  set (flags := Spec.log_flags log ++ Spec.receipt_flags receipt).
  destruct (subprocess_run
    (MCPTrust.bin_path self :: Spec.diff_argv lockfile flags tokens)
    timeout (host w)) as [[name|diff] os1] eqn:Hdiff.
  - by rewrite (check_diff_raised _ _ _ _ _ _ _ _ _ _ _ _ _ Hparse Hdiff).
  - destruct (subprocess_run
      (MCPTrust.bin_path self :: Spec.policy_argv preset lockfile flags tokens)
      timeout os1) as [reply os2] eqn:Hpolicy.
    rewrite (check_eq _ _ _ _ _ _ _ _ _ _ _ _ _ _ _ Hparse Hdiff Hpolicy).
    cbn [fst]. destruct reply as [name|policy]; [done|].
    unfold Spec.verdict.
    by destruct (raise_on_fail && negb (Spec.exit_ok diff && Spec.exit_ok policy)).
Qed.
End server_command.

(** ** The flag block of logging and receipts *)

Lemma not_a_log_flag (x : string) :
  bool_decide (x ∉ Spec.log_flag_names) = true → x ∉ Spec.log_flag_names.
Proof. apply bool_decide_eq_true_1. Qed.

Ltac free_of_log_flags :=
  unfold Spec.free_of_log_flags, Spec.lock_argv, Spec.diff_argv,
    Spec.policy_argv, Spec.run_argv, Spec.when, Spec.receipt_flags in *;
  repeat match goal with
         | |- context [if ?b then _ else _] => destruct b
         | r : option ReceiptConfig.t |- _ => destruct r
         end;
  repeat first [ rewrite Forall_app in * | rewrite Forall_cons in *
               | rewrite Forall_nil in * ];
  repeat match goal with
         | |- _ ∧ _ => split
         | |- True => exact I
         | |- Forall _ _ => tauto
         | |- _ ∉ Spec.log_flag_names =>
             first [ tauto | by apply not_a_log_flag; vm_compute ]
         end.


(** ** The two forms of the server command *)

(** C5: [lock] and [check] take the server command as a string or as a
    token sequence, a form being supplied when it is present and not empty.
    With both forms supplied they raise the usage error "not both", with
    neither the usage error "must specify", each before any child process is
    spawned.  With one form supplied, that form gives the tokens after the
    separator of every child: a token sequence as it is, each token one
    element, and a string as [shlex.split] splits it (a string that it
    rejects is a usage error too) -- words written bare or in quotes, one
    blank in between, come back as their texts, so a quoted text with
    blanks in it is one token. *)
Theorem server_command_forms `{Platform OS}
    (self : MCPTrust.t) (w : world OS)
    (sc : option string) (sa : option (list string))
    (lockfile preset : string) (pin vp : bool) (timeout : option Z)
    (log : option LogConfig.t) (receipt : option ReceiptConfig.t)
    (raise_on_fail : bool) :
  let locked :=
    MCPTrust.lock self sc sa lockfile pin vp timeout log receipt w in
  let checked :=
    MCPTrust.check self sc sa lockfile preset timeout log receipt
      raise_on_fail w in
  let usage_error (msg : string) :=
    Spec.raised_before_spawn locked w (ValueError msg)
    ∧ Spec.raised_before_spawn checked w (ValueError msg) in
  (Py.truthy_str sc = true → Py.truthy_list sa = true →
     usage_error "Specify server_command OR server_argv, not both")
  ∧ (Py.truthy_str sc = false → Py.truthy_list sa = false →
       usage_error "Must specify server_command or server_argv")
  ∧ (∀ tokens,
       Py.truthy_str sc = false → sa = Some tokens → tokens ≠ [] →
       Spec.uses_tokens w locked.2 tokens
       ∧ Spec.uses_tokens w checked.2 tokens)
  ∧ (∀ s tokens,
       sc = Some s → s ≠ "" → Py.truthy_list sa = false →
       shlex.split s = inr tokens →
       Spec.uses_tokens w locked.2 tokens
       ∧ Spec.uses_tokens w checked.2 tokens)
  ∧ (∀ s msg,
       sc = Some s → s ≠ "" → Py.truthy_list sa = false →
       shlex.split s = inl msg →
       usage_error msg)
  ∧ (∀ ws : list Spec.word,
       Forall (λ x, Spec.well_written x = true) ws →
       shlex.split (Py.join " " (Spec.written <$> ws))
       = inr (Spec.text <$> ws)).
Proof.
  intros locked checked usage_error. subst locked checked usage_error.
  unfold Spec.raised_before_spawn. repeat apply conj.
  - intros Hsc Hsa. pose proof (parse_both _ _ Hsc Hsa) as Hparse.
    by rewrite (lock_usage_error _ _ _ _ _ _ _ _ _ _ _ Hparse),
      (check_usage_error _ _ _ _ _ _ _ _ _ _ _ Hparse).
  - intros Hsc Hsa. pose proof (parse_neither _ _ Hsc Hsa) as Hparse.
    by rewrite (lock_usage_error _ _ _ _ _ _ _ _ _ _ _ Hparse),
      (check_usage_error _ _ _ _ _ _ _ _ _ _ _ Hparse).
  - intros tokens Hsc -> Hne. pose proof (parse_tokens _ _ Hsc Hne) as Hparse.
    split; [by apply lock_uses_tokens | by apply check_uses_tokens].
  - intros s tokens -> Hne Hsa Hsplit.
    pose proof (parse_string _ _ Hne Hsa) as Hparse. rewrite Hsplit in Hparse.
    split; [by apply lock_uses_tokens | by apply check_uses_tokens].
  - intros s msg -> Hne Hsa Hsplit.
    pose proof (parse_string _ _ Hne Hsa) as Hparse. rewrite Hsplit in Hparse.
    by rewrite (lock_usage_error _ _ _ _ _ _ _ _ _ _ _ Hparse),
      (check_usage_error _ _ _ _ _ _ _ _ _ _ _ Hparse).
  - apply split_words.
Qed.

(** C10: presence is truth value.  An empty token sequence with no string,
    or with an empty one, is the usage error "must specify", raised before
    any child process is spawned; a token sequence that is not empty with an
    empty string is no usage error: [lock] and [check] spawn, and the tokens
    go after the separator. *)
Theorem server_command_presence `{Platform OS}
    (self : MCPTrust.t) (w : world OS)
    (lockfile preset : string) (pin vp : bool) (timeout : option Z)
    (log : option LogConfig.t) (receipt : option ReceiptConfig.t)
    (raise_on_fail : bool) :
  (∀ sc, sc = None ∨ sc = Some "" →
     MCPTrust.lock self sc (Some []) lockfile pin vp timeout log receipt w
     = (inl (ValueError "Must specify server_command or server_argv"), w)
     ∧ MCPTrust.check self sc (Some []) lockfile preset timeout log receipt
         raise_on_fail w
       = (inl (ValueError "Must specify server_command or server_argv"), w))
  ∧ (∀ tokens, tokens ≠ [] →
       MCPTrust._parse_server_command (Some "") (Some tokens) = inr tokens
       ∧ Spec.uses_tokens w
           (MCPTrust.lock self (Some "") (Some tokens) lockfile pin vp
              timeout log receipt w).2 tokens
       ∧ Spec.uses_tokens w
           (MCPTrust.check self (Some "") (Some tokens) lockfile preset
              timeout log receipt raise_on_fail w).2 tokens).
Proof.
  split.
  - intros sc Hsc.
    assert (Hparse : MCPTrust._parse_server_command sc (Some [])
      = inl (ValueError "Must specify server_command or server_argv"))
      by (by destruct Hsc as [-> | ->]).
    by rewrite (lock_usage_error _ _ _ _ _ _ _ _ _ _ _ Hparse),
      (check_usage_error _ _ _ _ _ _ _ _ _ _ _ Hparse).
  - intros tokens Hne.
    assert (Hparse :
      MCPTrust._parse_server_command (Some "") (Some tokens) = inr tokens)
      by (by apply parse_tokens).
    split; [done|].
    split; [by apply lock_uses_tokens | by apply check_uses_tokens].
Qed.

(** ** Finding the binary *)

(** C7: the constructor takes the path of the binary from its argument, else
    from the environment variable MCPTRUST_BIN, else from the search path,
    in that order, a source that is absent or empty being passed over.  With
    an explicit path the result is that path on every machine, whatever its
    environment and search path.  When none of the three gives a path the
    constructor raises the "not installed" error, whose message tells how to
    install the tool, and returns no client; nothing has been spawned. *)
Theorem binary_discovery `{Platform OS}
    (w : world OS) (bin_path : option string) :
  let env_bin := environ (host w) !! "MCPTRUST_BIN" in
  let which_bin := shutil_which (host w) "mcptrust" in
  (∀ p, bin_path = Some p → p ≠ "" →
     MCPTrust.__init__ bin_path w = (inr (MCPTrust.mk p), w)
     ∧ ∀ OS' (P' : Platform OS') (w' : world OS'),
         (MCPTrust.__init__ bin_path w').1 = (MCPTrust.__init__ bin_path w).1)
  ∧ (∀ p, Py.truthy_str bin_path = false → env_bin = Some p → p ≠ "" →
       MCPTrust.__init__ bin_path w = (inr (MCPTrust.mk p), w))
  ∧ (∀ p, Py.truthy_str bin_path = false → Py.truthy_str env_bin = false →
       which_bin = Some p → p ≠ "" →
       MCPTrust.__init__ bin_path w = (inr (MCPTrust.mk p), w))
  ∧ (Py.truthy_str bin_path = false → Py.truthy_str env_bin = false →
     Py.truthy_str which_bin = false →
       Spec.raised_before_spawn (MCPTrust.__init__ bin_path w) w
         (NotInstalled MCPTrustNotInstalled.default_message))
  ∧ Spec.occurs_in "Install with: go install "
      MCPTrustNotInstalled.default_message.
Proof.
  intros env_bin which_bin. repeat apply conj.
  - intros p -> Hp. destruct p as [|c p]; [done|]. done.
  - intros p Hbin Henv Hp. unfold MCPTrust.__init__. rewrite Hbin.
    unfold mbind, M_bind, os_environ. fold env_bin. rewrite Henv.
    by destruct p.
  - intros p Hbin Henv Hwhich Hp. unfold MCPTrust.__init__. rewrite Hbin.
    unfold mbind, M_bind, os_environ, which. fold env_bin. rewrite Henv.
    fold which_bin. rewrite Hwhich. by destruct p.
  - intros Hbin Henv Hwhich. unfold Spec.raised_before_spawn, MCPTrust.__init__.
    rewrite Hbin. unfold mbind, M_bind, os_environ, which. fold env_bin.
    rewrite Henv. fold which_bin. by rewrite Hwhich.
  - by exists "mcptrust binary not found. ",
      ("github.com/mcptrust/mcptrust/cmd/mcptrust@latest " +:+
       "or set MCPTRUST_BIN environment variable.").
Qed.

(** ** [lock] *)


(** ** [check] *)

(** C1: for a server command that parses and two children that exit,
    [check] spawns exactly two children, the diff step and then the policy
    step, whatever the exit code of the diff step.  The result it returns
    has [passed] true exactly when both exit codes are 0, and carries the
    output and error streams of each step in its own fields; it does return
    one unless it was asked to raise and a step failed. *)
Theorem check_contract `{Platform OS}
    (self : MCPTrust.t) (w : world OS)
    (sc : option string) (sa : option (list string))
    (lockfile preset : string) (timeout : option Z)
    (log : option LogConfig.t) (receipt : option ReceiptConfig.t)
    (raise_on_fail : bool)
    (tokens : list string) (diff policy : CompletedProcess.t) (os1 os2 : OS) :
  let flags := MCPTrust._build_common_flags log receipt in
  let diff_argv :=
    [MCPTrust.bin_path self; "diff"; "--lockfile"; lockfile]
      ++ flags ++ ["--"] ++ tokens in
  let policy_argv :=
    [MCPTrust.bin_path self; "policy"; "check"; "--preset"; preset;
     "--lockfile"; lockfile] ++ flags ++ ["--"] ++ tokens in
  let checked :=
    MCPTrust.check self sc sa lockfile preset timeout log receipt
      raise_on_fail w in
  let passed :=
    ((CompletedProcess.returncode diff =? 0)
     && (CompletedProcess.returncode policy =? 0))%Z in
  let outcome :=
    CheckResult.mk passed
      (CompletedProcess.stdout diff) (CompletedProcess.stderr diff)
      (CompletedProcess.stdout policy) (CompletedProcess.stderr policy) in
  MCPTrust._parse_server_command sc sa = inr tokens →
  subprocess_run diff_argv timeout (host w) = (inr diff, os1) →
  subprocess_run policy_argv timeout os1 = (inr policy, os2) →
  checked.2 = World os2 (spawned w ++ [diff_argv; policy_argv])
  ∧ (passed = true ↔
     CompletedProcess.returncode diff = 0%Z
     ∧ CompletedProcess.returncode policy = 0%Z)
  ∧ (∀ r, checked.1 = inr r → r = outcome)
  ∧ (raise_on_fail = false ∨ passed = true → checked.1 = inr outcome).
Proof.
  intros flags diff_argv policy_argv checked passed outcome Hparse Hdiff Hpolicy.
  subst flags diff_argv policy_argv checked. cbn [app] in *.
  rewrite build_common_flags_eq in *.
  rewrite (check_eq _ _ _ _ _ _ _ _ _ _ _ _ _ _ _ Hparse Hdiff Hpolicy).
  cbn [fst snd]. unfold Spec.verdict, Spec.exit_ok. fold passed. fold outcome.
  split; [done|]. split.
  { unfold passed. rewrite andb_true_iff, !Z.eqb_eq. done. }
  split.
  - intros r. destruct (raise_on_fail && negb passed); [done|]. congruence.
  - intros [-> | ->]; by rewrite ?andb_false_r.
Qed.

(** C2: for a server command that parses and two children that exit,
    [check] with [raise_on_fail] at its default returns a result, also when
    both steps failed.  With [raise_on_fail] set it raises the failure of
    the first step that failed: after a failed diff step the error has the
    exit code, the argument vector, the output and the error stream of the
    diff step, whatever the policy step did; after a diff step that passed
    and a failed policy step it has those of the policy step. *)
Theorem check_raise_on_fail `{Platform OS}
    (self : MCPTrust.t) (w : world OS)
    (sc : option string) (sa : option (list string))
    (lockfile preset : string) (timeout : option Z)
    (log : option LogConfig.t) (receipt : option ReceiptConfig.t)
    (tokens : list string) (diff policy : CompletedProcess.t) (os1 os2 : OS) :
  let flags := MCPTrust._build_common_flags log receipt in
  let diff_argv :=
    [MCPTrust.bin_path self; "diff"; "--lockfile"; lockfile]
      ++ flags ++ ["--"] ++ tokens in
  let policy_argv :=
    [MCPTrust.bin_path self; "policy"; "check"; "--preset"; preset;
     "--lockfile"; lockfile] ++ flags ++ ["--"] ++ tokens in
  let checked raise_on_fail :=
    MCPTrust.check self sc sa lockfile preset timeout log receipt
      raise_on_fail w in
  let failure_of (argv : list string) (child : CompletedProcess.t) :=
    MCPTrustCommandError.mk
      ("mcptrust exited with code " +:+
         Py.str_int (CompletedProcess.returncode child))
      (CompletedProcess.returncode child) argv
      (CompletedProcess.stdout child) (CompletedProcess.stderr child) in
  MCPTrust._parse_server_command sc sa = inr tokens →
  subprocess_run diff_argv timeout (host w) = (inr diff, os1) →
  subprocess_run policy_argv timeout os1 = (inr policy, os2) →
  (∃ r, (checked Defaults.check_raise_on_fail).1 = inr r)
  ∧ (CompletedProcess.returncode diff ≠ 0%Z →
       (checked true).1 = inl (CommandError (failure_of diff_argv diff)))
  ∧ (CompletedProcess.returncode diff = 0%Z →
     CompletedProcess.returncode policy ≠ 0%Z →
       (checked true).1 = inl (CommandError (failure_of policy_argv policy))).
Proof.
  intros flags diff_argv policy_argv checked failure_of Hparse Hdiff Hpolicy.
  subst flags diff_argv policy_argv checked failure_of. cbn [app] in *.
  rewrite build_common_flags_eq in *.
  rewrite !(check_eq _ _ _ _ _ _ _ _ _ _ _ _ _ _ _ Hparse Hdiff Hpolicy).
  cbn [fst]. unfold Spec.verdict, Spec.exit_ok, Defaults.check_raise_on_fail.
  split; [by eexists|]. split.
  - intros Hd%Z.eqb_neq. by rewrite Hd.
  - intros Hd%Z.eqb_eq Hp%Z.eqb_neq. by rewrite Hd, Hp.
Qed.

(** ** [run] *)

(** C4: for a child that exits with another code than 0, [run] with
    [raise_on_fail] at its default raises the command error, and with
    [raise_on_fail] unset it returns a result with that exit code and the
    captured output and error streams; for a child that exits with 0 the
    result has exit code 0. *)
Theorem run_contract `{Platform OS}
    (self : MCPTrust.t) (w : world OS)
    (lockfile : string) (require_provenance dry_run : bool)
    (bin_name : option string) (timeout : option Z)
    (log : option LogConfig.t) (receipt : option ReceiptConfig.t)
    (result : CompletedProcess.t) (os : OS) :
  let argv :=
    MCPTrust.bin_path self ::
      Spec.run_argv lockfile (MCPTrust._build_common_flags log receipt)
        require_provenance dry_run bin_name in
  let ran raise_on_fail :=
    MCPTrust.run self lockfile require_provenance dry_run bin_name timeout
      log receipt raise_on_fail w in
  subprocess_run argv timeout (host w) = (inr result, os) →
  (∀ raise_on_fail, (ran raise_on_fail).2 = World os (spawned w ++ [argv]))
  ∧ (CompletedProcess.returncode result ≠ 0%Z →
       (ran Defaults.run_raise_on_fail).1
       = inl (CommandError (MCPTrustCommandError.mk
           ("mcptrust exited with code " +:+
              Py.str_int (CompletedProcess.returncode result))
           (CompletedProcess.returncode result) argv
           (CompletedProcess.stdout result)
           (CompletedProcess.stderr result)))
       ∧ (ran false).1
         = inr (RunResult.mk (CompletedProcess.returncode result)
             (CompletedProcess.stdout result)
             (CompletedProcess.stderr result)))
  ∧ (CompletedProcess.returncode result = 0%Z →
       ∀ raise_on_fail,
         (ran raise_on_fail).1
         = inr (RunResult.mk 0
             (CompletedProcess.stdout result)
             (CompletedProcess.stderr result))).
Proof.
  intros argv ran Hrun. subst argv ran. rewrite build_common_flags_eq in *.
  split; [|split].
  - intros raise_on_fail. by rewrite (run_eq _ _ _ _ _ _ _ _ _ _ _ _ Hrun).
  - intros Hcode%Z.eqb_neq.
    rewrite !(run_eq _ _ _ _ _ _ _ _ _ _ _ _ Hrun). cbn [fst].
    unfold Spec.exit_ok. by rewrite Hcode.
  - intros Hcode raise_on_fail.
    rewrite (run_eq _ _ _ _ _ _ _ _ _ _ _ _ Hrun). cbn [fst].
    unfold Spec.exit_ok. by rewrite Hcode.
Qed.

(** ** The message of a command error *)

Section error_message.
Import MCPTrustCommandError.

Lemma length_slice_to (n : nat) (s : string) :
  n ≤ String.length s → String.length (Py.slice_to n s) = n.
Proof.
  unfold Py.slice_to. revert s.
  induction n as [|n IH]; intros [|c s] Hlen; simpl in *; try done; try lia.
  rewrite IH; [done | lia].
Qed.

Lemma all_chars_append (p : ascii → bool) (s1 s2 : string) :
  Spec.all_chars p (s1 +:+ s2) = Spec.all_chars p s1 && Spec.all_chars p s2.
Proof.
  induction s1 as [|c s1 IH]; simpl; [done|].
  by rewrite IH, andb_assoc.
Qed.

Lemma repr_char_plain (q c : ascii) :
  Spec.plain c = true → q = Py.squote ∨ q = Py.dquote →
  Py.repr_char q c = String c "".
Proof.
  unfold Spec.plain. intros [Hprint Hc]%andb_prop Hq.
  apply negb_true_iff in Hc.
  apply orb_false_elim in Hc as [Hc Hbs].
  apply orb_false_elim in Hc as [Hsq Hdq].
  unfold Py.repr_char. rewrite Hbs, Hprint.
  replace (Ascii.eqb c q) with false by (by destruct Hq as [-> | ->]).
  unfold Py.isprintable in Hprint. cbn [orb].
  destruct (N.eqb_spec (N_of_ascii c) 9) as [E|_];
    [by rewrite E in Hprint|].
  destruct (N.eqb_spec (N_of_ascii c) 10) as [E|_];
    [by rewrite E in Hprint|].
  destruct (N.eqb_spec (N_of_ascii c) 13) as [E|_];
    [by rewrite E in Hprint|].
  done.
Qed.

Lemma repr_plain (s : string) :
  Spec.all_chars Spec.plain s = true →
  Py.repr s = String Py.squote (s +:+ String Py.squote "").
Proof.
  intros Hs.
  assert (Hsq : Py.contains Py.squote s = false).
  { induction s as [|c s IH]; [done|]. cbn [Spec.all_chars] in Hs.
    apply andb_prop in Hs as [Hc Hs]. cbn [Py.contains].
    rewrite (IH Hs). unfold Spec.plain in Hc.
    apply andb_prop in Hc as [_ Hc]. apply negb_true_iff in Hc.
    apply orb_false_elim in Hc as [Hc _].
    apply orb_false_elim in Hc as [Hc _].
    rewrite Ascii.eqb_sym. by rewrite Hc. }
  unfold Py.repr. rewrite Hsq. cbn [andb]. rewrite append_cons. f_equal.
  f_equal. induction s as [|c s IH]; [done|].
  cbn [Spec.all_chars Py.contains] in *.
  apply andb_prop in Hs as [Hc Hs].
  destruct (Ascii.eqb Py.squote c); [done|].
  cbn [Py.repr_body]. rewrite (repr_char_plain _ _ Hc); [|by left].
  by rewrite (IH Hs Hsq).
Qed.

Lemma __str___eq (e : t) :
  __str__ e
  = message e +:+ " | exit_code=" +:+ Py.str_int (exit_code e)
    +:+ (if Py.nonempty (stderr e)
         then " | stderr=" +:+ Py.repr (stderr_preview (stderr e))
         else "").
Proof.
  unfold __str__. destruct (Py.nonempty (stderr e)); cbn [app Py.join].
  - rewrite append_assoc. by simpl.
  - rewrite append_nil_r. by simpl.
Qed.

Lemma long_stderr_nonempty (s : string) :
  200 < String.length s → Py.nonempty s = true.
Proof. destruct s; simpl; [lia | done]. Qed.

Lemma long_stderr_preview (s : string) :
  200 < String.length s → stderr_preview s = Py.slice_to 200 s +:+ "...".
Proof.
  intros Hlen. unfold stderr_preview.
  by destruct (Nat.ltb_spec 200 (String.length s)); [|lia].
Qed.
End error_message.

(** C9: the string form of a command error has the exit code in it, and
    shows of the error stream a preview of at most 203 characters, in
    Python's [repr] form.  For an
    error stream of more than 200 characters the preview is its first 200
    characters and an ellipsis: the message is the same for all error
    streams that start with these 200 characters, and shows them as they
    are when [repr] has nothing to escape in them. *)
Theorem command_error_message (e : MCPTrustCommandError.t) :
  let code := Py.str_int (MCPTrustCommandError.exit_code e) in
  let stderr := MCPTrustCommandError.stderr e in
  let shown := Py.slice_to 200 stderr in
  Spec.occurs_in ("exit_code=" +:+ code) (MCPTrustCommandError.__str__ e)
  ∧ String.length (MCPTrustCommandError.stderr_preview stderr) ≤ 203
  ∧ (200 < String.length stderr →
       String.length shown = 200
       ∧ MCPTrustCommandError.__str__ e
         = MCPTrustCommandError.message e +:+ " | exit_code=" +:+ code
           +:+ " | stderr=" +:+ Py.repr (shown +:+ "..."))
  ∧ (200 < String.length stderr →
     ∀ stderr', 200 < String.length stderr' →
       Py.slice_to 200 stderr' = shown →
       MCPTrustCommandError.__str__
         (MCPTrustCommandError.mk
            (MCPTrustCommandError.message e) (MCPTrustCommandError.exit_code e)
            (MCPTrustCommandError.argv e) (MCPTrustCommandError.stdout e)
            stderr')
       = MCPTrustCommandError.__str__ e)
  ∧ (200 < String.length stderr → Spec.all_chars Spec.plain shown = true →
       MCPTrustCommandError.__str__ e
       = MCPTrustCommandError.message e +:+ " | exit_code=" +:+ code
         +:+ " | stderr='" +:+ shown +:+ "...'").
Proof.
  intros code stderr shown. subst code stderr shown.
  rewrite __str___eq. repeat apply conj.
  - eexists (MCPTrustCommandError.message e +:+ " | "), _.
    rewrite !append_assoc. reflexivity.
  - unfold MCPTrustCommandError.stderr_preview.
    destruct (Nat.ltb_spec 200 (String.length (MCPTrustCommandError.stderr e)));
      [|lia].
    rewrite length_append, length_slice_to; simpl; lia.
  - intros Hlen. split; [apply length_slice_to; lia|].
    by rewrite (long_stderr_nonempty _ Hlen), (long_stderr_preview _ Hlen).
  - intros Hlen stderr' Hlen' Hshown. rewrite __str___eq.
    cbn [MCPTrustCommandError.message MCPTrustCommandError.exit_code
         MCPTrustCommandError.stderr].
    rewrite (long_stderr_nonempty _ Hlen), (long_stderr_preview _ Hlen).
    rewrite (long_stderr_nonempty _ Hlen'), (long_stderr_preview _ Hlen').
    by rewrite Hshown.
  - intros Hlen Hplain.
    rewrite (long_stderr_nonempty _ Hlen), (long_stderr_preview _ Hlen).
    rewrite repr_plain; [|by rewrite all_chars_append, Hplain].
    do 3 f_equal. rewrite append_cons, !append_assoc. done.
Qed.

(** ** The adapters *)

(** C8, as the code has it: the constructor of [MCPTrustGuard], given a
    token sequence that is not empty, accepts it whether a string came with
    it or not, and raises no usage error: with a client passed in it
    returns, without touching the world, the guard that holds the token
    sequence and no string; with no client passed in it does so with the
    client that the discovery of the binary gives, and fails only as that
    discovery fails.  Every [lock] and [check] made through the guard then
    goes by the token sequence, and raises no usage error. *)
Theorem guard_prefers_tokens `{Platform OS}
    (w : world OS) (mcp : option MCPTrust.t)
    (server_command : option string) (tokens : list string)
    (lockfile preset : string)
    (log : option LogConfig.t) (receipt : option ReceiptConfig.t) :
  let made :=
    MCPTrustGuard.__init__ mcp server_command (Some tokens) lockfile preset
      log receipt w in
  let guard_of m :=
    MCPTrustGuard.mk m None (Some tokens) lockfile preset log receipt in
  tokens ≠ [] →
  (∀ m, mcp = Some m → made = (inr (guard_of m), w))
  ∧ (mcp = None →
     made = match MCPTrust.__init__ None w with
            | (inl e, w') => (inl e, w')
            | (inr m, w') => (inr (guard_of m), w')
            end)
  ∧ (∀ msg, made.1 ≠ inl (ValueError msg))
  ∧ (∀ guard w1, made = (inr guard, w1) →
       MCPTrustGuard.server_argv guard = Some tokens
       ∧ MCPTrustGuard.server_command guard = None)
  ∧ (∀ m w2 pin vp,
       Spec.token_sequence_wins w2
         (MCPTrustGuard.lock (guard_of m) pin vp w2) tokens)
  ∧ (∀ m w2 raise_on_fail,
       Spec.token_sequence_wins w2
         (MCPTrustGuard.check (guard_of m) raise_on_fail w2) tokens).
Proof.
  intros made guard_of Hne.
  assert (Hgiven : ∀ m, mcp = Some m → made = (inr (guard_of m), w)).
  { intros m ->. subst made guard_of. unfold MCPTrustGuard.__init__.
    destruct tokens as [|t tokens]; [done|].
    cbn [Py.truthy_list negb]. by rewrite andb_false_r. }
  assert (Hfound : mcp = None →
    made = match MCPTrust.__init__ None w with
           | (inl e, w') => (inl e, w')
           | (inr m, w') => (inr (guard_of m), w')
           end).
  { intros ->. subst made guard_of. unfold MCPTrustGuard.__init__.
    destruct tokens as [|t tokens]; [done|].
    cbn [Py.truthy_list negb]. rewrite andb_false_r.
    unfold mbind, M_bind.
    by destruct (MCPTrust.__init__ None w) as [[e|m] w']. }
  assert (Hdiscovery : ∀ msg,
    (MCPTrust.__init__ None w).1 ≠ inl (ValueError msg)).
  { intros msg. unfold MCPTrust.__init__, mbind, M_bind, os_environ, which.
    cbn [Py.truthy_str].
    destruct (Py.truthy_str (environ (host w) !! "MCPTRUST_BIN")); [done|].
    by destruct (Py.truthy_str (shutil_which (host w) "mcptrust")). }
  assert (Hmade : ∀ guard w1, made = (inr guard, w1) → ∃ m, guard = guard_of m).
  { intros guard w1 Hguard. destruct mcp as [m|].
    - rewrite (Hgiven m eq_refl) in Hguard. exists m. congruence.
    - rewrite (Hfound eq_refl) in Hguard.
      destruct (MCPTrust.__init__ None w) as [[e|m] w']; [done|].
      exists m. congruence. }
  assert (Hparse : MCPTrust._parse_server_command None (Some tokens)
                   = inr tokens) by (by apply parse_tokens).
  repeat apply conj.
  - exact Hgiven.
  - exact Hfound.
  - intros msg. destruct mcp as [m|].
    + by rewrite (Hgiven m eq_refl).
    + rewrite (Hfound eq_refl). specialize (Hdiscovery msg).
      destruct (MCPTrust.__init__ None w) as [[e|m] w']; cbn [fst] in *;
        [|discriminate].
      intros [= ->]. by apply Hdiscovery.
  - intros guard w1 Hguard. by destruct (Hmade guard w1 Hguard) as [m ->].
  - intros m w2 pin vp. split.
    + by apply lock_uses_tokens.
    + intros msg. by apply lock_no_usage_error with tokens.
  - intros m w2 raise_on_fail. split.
    + by apply check_uses_tokens.
    + intros msg. by apply check_no_usage_error with tokens.
Qed.

(** C8, as it is stated, fails on the LangChain adapter: a
    [TrustedMCPServer] made with a string and a token sequence hands both to
    the client, whose [lock] and [check] raise the usage error "not both"
    before any child process is spawned. *)
Lemma langchain_adapter_rejects_both_forms :
  let server :=
    TrustedMCPServer.__init__ (MCPTrust.mk "/mock/mcptrust")
      (Some "ignored command") (Some ["npx"; "-y"; "preferred"])
      Defaults.lockfile Defaults.preset in
  let w :=
    Scripted.start
      (Scripted.scripted [Scripted.exited 0 "" ""; Scripted.exited 0 "" ""]) in
  let not_both :=
    ValueError "Specify server_command OR server_argv, not both" in
  TrustedMCPServer.lock server Defaults.pin Defaults.verify_provenance
    None None None w = (inl not_both, w)
  ∧ TrustedMCPServer.check server None None None
      Defaults.check_raise_on_fail w = (inl not_both, w)
  ∧ ¬ Spec.token_sequence_wins w
        (TrustedMCPServer.lock server Defaults.pin
           Defaults.verify_provenance None None None w)
        ["npx"; "-y"; "preferred"]
  ∧ ¬ Spec.token_sequence_wins w
        (TrustedMCPServer.check server None None None
           Defaults.check_raise_on_fail w)
        ["npx"; "-y"; "preferred"].
Proof.
  intros server w not_both.
  assert (Hlock : TrustedMCPServer.lock server Defaults.pin
            Defaults.verify_provenance None None None w = (inl not_both, w))
    by reflexivity.
  assert (Hcheck : TrustedMCPServer.check server None None None
            Defaults.check_raise_on_fail w = (inl not_both, w))
    by reflexivity.
  repeat apply conj; try done.
  - rewrite Hlock. intros [_ Herr]. exact (Herr _ eq_refl).
  - rewrite Hcheck. intros [_ Herr]. exact (Herr _ eq_refl).
Qed.

(** ** The scenarios of the test suite, on the scripted machine *)

(** [check("cmd", preset="strict")] with a diff step that exits 1 with
    output "drift" and a policy step that exits 0. *)
Lemma check_contract_witness :
  let self := MCPTrust.mk "/mock/tool" in
  let w :=
    Scripted.start
      (Scripted.scripted
         [Scripted.exited 1 "drift" "error"; Scripted.exited 0 "" ""]) in
  let checked :=
    MCPTrust.check self (Some "cmd") None Defaults.lockfile "strict" None
      None None Defaults.check_raise_on_fail w in
  MCPTrust._parse_server_command (Some "cmd") None = inr ["cmd"]
  ∧ spawned checked.2
    = [["/mock/tool"; "diff"; "--lockfile"; "mcp-lock.json"; "--"; "cmd"];
       ["/mock/tool"; "policy"; "check"; "--preset"; "strict";
        "--lockfile"; "mcp-lock.json"; "--"; "cmd"]]
  ∧ checked.1 = inr (CheckResult.mk false "drift" "error" "" "").
Proof.
  intros self w checked.
  destruct (check_contract self w (Some "cmd") None Defaults.lockfile
              "strict" None None None Defaults.check_raise_on_fail ["cmd"]
              (CompletedProcess.mk 1 "drift" "error")
              (CompletedProcess.mk 0 "" "")
              (Scripted.scripted [Scripted.exited 0 "" ""])
              (Scripted.scripted []))
    as (Hworld & _ & _ & Hreturns); [reflexivity..|].
  split; [reflexivity|]. split.
  - subst checked. rewrite Hworld. reflexivity.
  - apply Hreturns. left. reflexivity.
Defined.

(** [check("cmd", raise_on_fail=True)] with both steps failing: the error
    is that of the diff step. *)
Lemma check_raise_on_fail_witness :
  let self := MCPTrust.mk "/mock/tool" in
  let w :=
    Scripted.start
      (Scripted.scripted
         [Scripted.exited 1 "drift" "err"; Scripted.exited 2 "denied" "no"]) in
  let checked raise_on_fail :=
    MCPTrust.check self (Some "cmd") None Defaults.lockfile Defaults.preset
      None None None raise_on_fail w in
  MCPTrust._parse_server_command (Some "cmd") None = inr ["cmd"]
  ∧ (∃ r, (checked false).1 = inr r)
  ∧ (checked true).1
    = inl (CommandError (MCPTrustCommandError.mk
        "mcptrust exited with code 1" 1
        ["/mock/tool"; "diff"; "--lockfile"; "mcp-lock.json"; "--"; "cmd"]
        "drift" "err")).
Proof.
  intros self w checked.
  destruct (check_raise_on_fail self w (Some "cmd") None Defaults.lockfile
              Defaults.preset None None None ["cmd"]
              (CompletedProcess.mk 1 "drift" "err")
              (CompletedProcess.mk 2 "denied" "no")
              (Scripted.scripted [Scripted.exited 2 "denied" "no"])
              (Scripted.scripted []))
    as (Hreturns & Hdiff & _); [reflexivity..|].
  split; [reflexivity|]. split.
  - exact Hreturns.
  - apply Hdiff. discriminate.
Defined.


(** [run()] and [run(raise_on_fail=False)] with a child that exits 42. *)
Lemma run_contract_witness :
  let self := MCPTrust.mk "/mock/tool" in
  let w := Scripted.start (Scripted.scripted [Scripted.exited 42 "out" "err"]) in
  let ran raise_on_fail :=
    MCPTrust.run self Defaults.lockfile false false None None None None
      raise_on_fail w in
  let argv :=
    ["/mock/tool"; "run"; "--lock"; "mcp-lock.json";
     "--require-provenance=false"] in
  (ran true).1
  = inl (CommandError (MCPTrustCommandError.mk
      "mcptrust exited with code 42" 42 argv "out" "err"))
  ∧ (ran false).1 = inr (RunResult.mk 42 "out" "err").
Proof.
  intros self w ran argv.
  destruct (run_contract self w Defaults.lockfile false false None None None
              None (CompletedProcess.mk 42 "out" "err") (Scripted.scripted []))
    as (_ & Hfail & _); [reflexivity|].
  apply Hfail. discriminate.
Defined.

(** [lock("cmd", server_argv=["cmd"])], [lock()], a token with blanks in
    it, and a command string with a quoted path. *)
Lemma server_command_forms_witness :
  let self := MCPTrust.mk "/mock/mcptrust" in
  let w := Scripted.start (Scripted.scripted [Scripted.exited 0 "" ""]) in
  let locked sc sa :=
    MCPTrust.lock self sc sa Defaults.lockfile Defaults.pin
      Defaults.verify_provenance None None None w in
  locked (Some "cmd") (Some ["cmd"])
  = (inl (ValueError "Specify server_command OR server_argv, not both"), w)
  ∧ locked None None
    = (inl (ValueError "Must specify server_command or server_argv"), w)
  ∧ Spec.uses_tokens w
      (locked None (Some ["npx"; "-y"; "@scope/server"; "/path with spaces"])).2
      ["npx"; "-y"; "@scope/server"; "/path with spaces"]
  ∧ shlex.split "npx '/path with spaces'" = inr ["npx"; "/path with spaces"]
  ∧ Spec.uses_tokens w
      (locked (Some "npx '/path with spaces'") None).2
      ["npx"; "/path with spaces"].
Proof.
  intros self w locked.
  pose proof (λ sc sa,
    server_command_forms self w sc sa Defaults.lockfile Defaults.preset
      Defaults.pin Defaults.verify_provenance None None None
      Defaults.check_raise_on_fail) as Hforms.
  cbv zeta in Hforms. repeat apply conj.
  - destruct (Hforms (Some "cmd") (Some ["cmd"])) as (Hboth & _).
    apply Hboth; reflexivity.
  - destruct (Hforms None None) as (_ & Hneither & _).
    apply Hneither; reflexivity.
  - destruct (Hforms None
      (Some ["npx"; "-y"; "@scope/server"; "/path with spaces"]))
      as (_ & _ & Htokens & _).
    apply (Htokens _ eq_refl eq_refl). discriminate.
  - destruct (Hforms None None) as (_ & _ & _ & _ & _ & Hwords).
    apply (Hwords [Spec.Bare "npx"; Spec.Single "/path with spaces"]).
    repeat constructor.
  - destruct (Hforms (Some "npx '/path with spaces'") None)
      as (_ & _ & _ & Hstring & _).
    apply (Hstring _ _ eq_refl); [discriminate | reflexivity | reflexivity].
Defined.

(** [lock(server_argv=[])], and [lock("", server_argv=["npx", "server"])]. *)
Lemma server_command_presence_witness :
  let self := MCPTrust.mk "/mock/mcptrust" in
  let w := Scripted.start (Scripted.scripted [Scripted.exited 0 "" ""]) in
  let locked sc sa :=
    MCPTrust.lock self sc sa Defaults.lockfile Defaults.pin
      Defaults.verify_provenance None None None w in
  locked None (Some [])
  = (inl (ValueError "Must specify server_command or server_argv"), w)
  ∧ Spec.uses_tokens w (locked (Some "") (Some ["npx"; "server"])).2
      ["npx"; "server"].
Proof.
  intros self w locked.
  destruct (server_command_presence self w Defaults.lockfile Defaults.preset
              Defaults.pin Defaults.verify_provenance None None None
              Defaults.check_raise_on_fail) as (Hempty & Htokens).
  split.
  - apply (Hempty None). left. reflexivity.
  - apply (Htokens ["npx"; "server"]). discriminate.
Defined.


(** The constructor on a machine with MCPTRUST_BIN set and the tool on the
    search path, and on a machine with neither. *)
Lemma binary_discovery_witness :
  let installed :=
    Scripted.start
      (Scripted.mk {["MCPTRUST_BIN" := "/env/mcptrust"]}
         {["mcptrust" := "/usr/local/bin/mcptrust"]} ∅ []) in
  let on_path_only :=
    Scripted.start
      (Scripted.mk ∅ {["mcptrust" := "/usr/local/bin/mcptrust"]} ∅ []) in
  let bare := Scripted.start Scripted.bare in
  (MCPTrust.__init__ (Some "/custom/path/mcptrust") installed).1
  = inr (MCPTrust.mk "/custom/path/mcptrust")
  ∧ (MCPTrust.__init__ None installed).1 = inr (MCPTrust.mk "/env/mcptrust")
  ∧ (MCPTrust.__init__ None on_path_only).1
    = inr (MCPTrust.mk "/usr/local/bin/mcptrust")
  ∧ MCPTrust.__init__ None bare
    = (inl (NotInstalled MCPTrustNotInstalled.default_message), bare).
Proof.
  intros installed on_path_only bare. repeat apply conj.
  - destruct (binary_discovery installed (Some "/custom/path/mcptrust"))
      as (Hexplicit & _).
    destruct (Hexplicit "/custom/path/mcptrust" eq_refl) as [-> _];
      [discriminate | reflexivity].
  - destruct (binary_discovery installed None) as (_ & Henv & _).
    rewrite (Henv "/env/mcptrust");
      [reflexivity | reflexivity | vm_compute; reflexivity | discriminate].
  - destruct (binary_discovery on_path_only None) as (_ & _ & Hwhich & _).
    rewrite (Hwhich "/usr/local/bin/mcptrust");
      [ reflexivity | reflexivity | vm_compute; reflexivity
      | vm_compute; reflexivity | discriminate ].
  - destruct (binary_discovery bare None) as (_ & _ & _ & Hnone & _).
    apply Hnone; vm_compute; reflexivity.
Defined.

(** A guard made with a string and a token sequence. *)
Lemma guard_prefers_tokens_witness :
  let mcp := MCPTrust.mk "/mock/mcptrust" in
  let w := Scripted.start (Scripted.scripted [Scripted.exited 0 "locked" ""]) in
  let guard :=
    MCPTrustGuard.mk mcp None (Some ["npx"; "-y"; "preferred"])
      Defaults.lockfile Defaults.preset None None in
  ["npx"; "-y"; "preferred"] ≠ []
  ∧ MCPTrustGuard.__init__ (Some mcp) (Some "ignored command")
      (Some ["npx"; "-y"; "preferred"]) Defaults.lockfile Defaults.preset
      None None w = (inr guard, w)
  ∧ Spec.token_sequence_wins w
      (MCPTrustGuard.lock guard Defaults.pin Defaults.verify_provenance w)
      ["npx"; "-y"; "preferred"].
Proof.
  intros mcp w guard.
  assert (Hne : ["npx"; "-y"; "preferred"] ≠ @nil string) by discriminate.
  split; [exact Hne|].
  destruct (guard_prefers_tokens w (Some mcp) (Some "ignored command")
              ["npx"; "-y"; "preferred"] Defaults.lockfile Defaults.preset
              None None Hne) as (Hgiven & _ & _ & _ & Hlock & _).
  split.
  - apply Hgiven. reflexivity.
  - apply Hlock.
Defined.

(** An error stream of 500 characters. *)
Lemma command_error_message_witness :
  let e := MCPTrustCommandError.mk "msg" 1 [] "" (Py.times "x" 500) in
  200 < String.length (MCPTrustCommandError.stderr e)
  ∧ MCPTrustCommandError.__str__ e
    = "msg | exit_code=1 | stderr='" +:+ Py.times "x" 200 +:+ "...'".
Proof.
  intros e.
  assert (Hlen : 200 < String.length (MCPTrustCommandError.stderr e))
    by (vm_compute; lia).
  split; [exact Hlen|].
  destruct (command_error_message e) as (_ & _ & _ & _ & Hplain).
  rewrite (Hplain Hlen); [reflexivity | vm_compute; reflexivity].
Defined.

(** * Further properties *)

(** ** [run], [version] and exceptions of [subprocess.run] *)

(** The one child of [run]. *)
Lemma run_spawned `{Platform OS}
    (self : MCPTrust.t) (w : world OS)
    (lockfile : string) (require_provenance dry_run : bool)
    (bin_name : option string) (timeout : option Z)
    (log : option LogConfig.t) (receipt : option ReceiptConfig.t)
    (raise_on_fail : bool) :
  spawned
    (MCPTrust.run self lockfile require_provenance dry_run bin_name timeout
       log receipt raise_on_fail w).2
  = spawned w
    ++ [[MCPTrust.bin_path self; "run"; "--lock"; lockfile]
        ++ MCPTrust._build_common_flags log receipt
        ++ [if require_provenance then "--require-provenance"
            else "--require-provenance=false"]
        ++ (if dry_run then ["--dry-run"] else [])
        ++ match bin_name with
           | Some (String c name) => ["--bin"; String c name]
           | _ => []
           end].
Proof.
  rewrite build_common_flags_eq.
  destruct (subprocess_run
    (MCPTrust.bin_path self ::
       Spec.run_argv lockfile
         (Spec.log_flags log ++ Spec.receipt_flags receipt)
         require_provenance dry_run bin_name) timeout (host w))
    as [reply os] eqn:Hrun.
  rewrite (run_eq _ _ _ _ _ _ _ _ _ _ _ _ Hrun). cbn [snd spawned].
  do 2 f_equal. unfold Spec.run_argv, Spec.when. cbn [app]. do 4 f_equal.
  f_equal. f_equal. by destruct bin_name as [[|c name]|].
Qed.

(** X1: [run] needs no server command and spawns exactly one child,
    whatever comes of it, with the argument vector "run", "--lock" and the
    lockfile path, the logging and receipt flags, one of the two spellings of
    the provenance flag, "--dry-run" when asked, and "--bin" with the name
    when a name that is not empty is given. *)
Theorem run_spawns_one_child `{Platform OS}
    (self : MCPTrust.t) (w : world OS)
    (lockfile : string) (require_provenance dry_run : bool)
    (bin_name : option string) (timeout : option Z)
    (log : option LogConfig.t) (receipt : option ReceiptConfig.t)
    (raise_on_fail : bool) :
  spawned
    (MCPTrust.run self lockfile require_provenance dry_run bin_name timeout
       log receipt raise_on_fail w).2
  = spawned w
    ++ [[MCPTrust.bin_path self; "run"; "--lock"; lockfile]
        ++ MCPTrust._build_common_flags log receipt
        ++ [if require_provenance then "--require-provenance"
            else "--require-provenance=false"]
        ++ (if dry_run then ["--dry-run"] else [])
        ++ match bin_name with
           | Some (String c name) => ["--bin"; String c name]
           | _ => []
           end].
Proof. apply run_spawned. Qed.

(** X2: an exception that [subprocess.run] itself raises (a timeout, a
    binary that cannot be started) is not a command error and is caught
    nowhere: [lock] raises it, [run] raises it also with [raise_on_fail]
    unset, and [check] raises it whatever [raise_on_fail] is -- from the diff
    step without running the policy step, and from the policy step also
    after a diff step that exited. *)
Theorem subprocess_exception_propagates `{Platform OS}
    (self : MCPTrust.t) (w : world OS)
    (sc : option string) (sa : option (list string))
    (lockfile preset : string) (pin vp : bool) (timeout : option Z)
    (log : option LogConfig.t) (receipt : option ReceiptConfig.t)
    (raise_on_fail : bool) (tokens : list string) (name : string) (os : OS) :
  let flags := MCPTrust._build_common_flags log receipt in
  let diff_argv :=
    [MCPTrust.bin_path self; "diff"; "--lockfile"; lockfile]
      ++ flags ++ ["--"] ++ tokens in
  let policy_argv :=
    [MCPTrust.bin_path self; "policy"; "check"; "--preset"; preset;
     "--lockfile"; lockfile] ++ flags ++ ["--"] ++ tokens in
  MCPTrust._parse_server_command sc sa = inr tokens →
  (subprocess_run diff_argv timeout (host w) = (inl name, os) →
     MCPTrust.check self sc sa lockfile preset timeout log receipt
       raise_on_fail w
     = (inl (SubprocessError name), World os (spawned w ++ [diff_argv])))
  ∧ (∀ diff os1,
       subprocess_run diff_argv timeout (host w) = (inr diff, os1) →
       subprocess_run policy_argv timeout os1 = (inl name, os) →
       MCPTrust.check self sc sa lockfile preset timeout log receipt
         raise_on_fail w
       = (inl (SubprocessError name),
          World os (spawned w ++ [diff_argv; policy_argv])))
  ∧ (∀ argv,
       argv = MCPTrust.bin_path self ::
                Spec.lock_argv flags lockfile pin vp tokens →
       subprocess_run argv timeout (host w) = (inl name, os) →
       MCPTrust.lock self sc sa lockfile pin vp timeout log receipt w
       = (inl (SubprocessError name), World os (spawned w ++ [argv])))
  ∧ (∀ require_provenance dry_run bin_name argv,
       argv = MCPTrust.bin_path self ::
                Spec.run_argv lockfile flags require_provenance dry_run
                  bin_name →
       subprocess_run argv timeout (host w) = (inl name, os) →
       MCPTrust.run self lockfile require_provenance dry_run bin_name
         timeout log receipt raise_on_fail w
       = (inl (SubprocessError name), World os (spawned w ++ [argv]))).
Proof.
  intros flags diff_argv policy_argv Hparse.
  subst flags diff_argv policy_argv. cbn [app].
  rewrite build_common_flags_eq. repeat apply conj.
  - intros Hdiff.
    by rewrite (check_diff_raised _ _ _ _ _ _ _ _ _ _ _ _ _ Hparse Hdiff).
  - intros diff os1 Hdiff Hpolicy.
    by rewrite (check_eq _ _ _ _ _ _ _ _ _ _ _ _ _ _ _ Hparse Hdiff Hpolicy).
  - intros argv -> Hrun.
    by rewrite (lock_eq _ _ _ _ _ _ _ _ _ _ _ _ _ Hparse Hrun).
  - intros rp dry_run bin_name argv -> Hrun.
    by rewrite (run_eq _ _ _ _ _ _ _ _ _ _ _ _ Hrun).
Qed.

Lemma subprocess_exception_propagates_witness :
  let self := MCPTrust.mk "/mock/mcptrust" in
  let timed_out := Scripted.start (Scripted.scripted [inl "TimeoutExpired"]) in
  let after_diff :=
    Scripted.start
      (Scripted.scripted [Scripted.exited 1 "drift" ""; inl "TimeoutExpired"]) in
  (MCPTrust.check self (Some "cmd") None Defaults.lockfile Defaults.preset
     (Some 5%Z) None None false timed_out).1
  = inl (SubprocessError "TimeoutExpired")
  ∧ spawned
      (MCPTrust.check self (Some "cmd") None Defaults.lockfile
         Defaults.preset (Some 5%Z) None None false timed_out).2
    = [["/mock/mcptrust"; "diff"; "--lockfile"; "mcp-lock.json"; "--"; "cmd"]]
  ∧ (MCPTrust.check self (Some "cmd") None Defaults.lockfile Defaults.preset
       (Some 5%Z) None None false after_diff).1
    = inl (SubprocessError "TimeoutExpired").
Proof.
  intros self timed_out after_diff.
  destruct (subprocess_exception_propagates self timed_out (Some "cmd") None
              Defaults.lockfile Defaults.preset true false (Some 5%Z) None
              None false ["cmd"] "TimeoutExpired" (Scripted.scripted []))
    as (Hdiff & _); [reflexivity|].
  destruct (subprocess_exception_propagates self after_diff (Some "cmd") None
              Defaults.lockfile Defaults.preset true false (Some 5%Z) None
              None false ["cmd"] "TimeoutExpired" (Scripted.scripted []))
    as (_ & Hpolicy & _); [reflexivity|].
  rewrite Hdiff by reflexivity.
  rewrite (Hpolicy (CompletedProcess.mk 1 "drift" "")
             (Scripted.scripted [inl "TimeoutExpired"])) by reflexivity.
  repeat split.
Defined.

(** ** [version] *)

Section strip.
Import PyText.

Lemma lstrip_spaces (pre s : string) :
  Spec.all_chars isspace pre = true → lstrip (pre +:+ s) = lstrip s.
Proof.
  induction pre as [|c pre IH]; [done|]. cbn [Spec.all_chars].
  intros [Hc Hpre]%andb_prop. cbn [String.append lstrip].
  rewrite Hc. by apply IH.
Qed.

Lemma rstrip_spaces (post : string) :
  Spec.all_chars isspace post = true → rstrip post = "".
Proof.
  induction post as [|c post IH]; [done|]. cbn [Spec.all_chars].
  intros [Hc Hpost]%andb_prop. cbn [rstrip]. by rewrite (IH Hpost), Hc.
Qed.

Lemma rstrip_append_spaces (s post : string) :
  Spec.all_chars isspace post = true → rstrip (s +:+ post) = rstrip s.
Proof.
  intros Hpost. induction s as [|c s IH].
  - cbn [String.append]. by rewrite rstrip_spaces.
  - cbn [String.append rstrip]. by rewrite IH.
Qed.

Lemma rstrip_ends_nonspace (s : string) :
  SpecMore.ends_nonspace s = true → rstrip s = s ∧ Py.nonempty s = true.
Proof.
  induction s as [|c s IH]; [done|]. cbn [SpecMore.ends_nonspace rstrip].
  destruct s as [|d s].
  - intros Hc%negb_true_iff. cbn [rstrip]. by rewrite Hc.
  - intros Hs. destruct (IH Hs) as [-> Hne]. rewrite Hne.
    by rewrite andb_false_r.
Qed.

Lemma strip_core (pre core post : string) :
  Spec.all_chars isspace pre = true →
  Spec.all_chars isspace post = true →
  SpecMore.starts_nonspace core = true →
  SpecMore.ends_nonspace core = true →
  strip (pre +:+ core +:+ post) = core.
Proof.
  intros Hpre Hpost Hstart Hend. unfold strip.
  rewrite (lstrip_spaces _ _ Hpre).
  destruct core as [|c core]; [done|]. cbn [SpecMore.starts_nonspace] in Hstart.
  apply negb_true_iff in Hstart. cbn [String.append lstrip]. rewrite Hstart.
  rewrite <- append_cons, (rstrip_append_spaces _ _ Hpost).
  by apply rstrip_ends_nonspace.
Qed.

Lemma strip_blank (s : string) :
  Spec.all_chars isspace s = true → strip s = "".
Proof.
  intros Hs. unfold strip.
  rewrite <- (append_nil_r s), (lstrip_spaces _ _ Hs). done.
Qed.
End strip.

(** X3: [version] spawns one child with the single argument "--version"
    and no timeout.  A child that exits with another code than 0 makes it
    raise the command error; a child that exits with 0 makes it return the
    output without the whitespace around it: for an output that is
    whitespace, a text that starts and ends with other characters, and
    whitespace again, the text; for an output of whitespace only, the empty
    string. *)
Theorem version_contract `{Platform OS}
    (self : MCPTrust.t) (w : world OS)
    (result : CompletedProcess.t) (os : OS) :
  let argv := [MCPTrust.bin_path self; "--version"] in
  let called := MCPTrustVersion.version self w in
  subprocess_run argv None (host w) = (inr result, os) →
  called.2 = World os (spawned w ++ [argv])
  ∧ (CompletedProcess.returncode result ≠ 0%Z →
       called.1 = inl (CommandError (Spec.failure self ["--version"] result)))
  ∧ (CompletedProcess.returncode result = 0%Z →
       called.1 = inr (PyText.strip (CompletedProcess.stdout result))
       ∧ (∀ pre core post,
            CompletedProcess.stdout result = pre +:+ core +:+ post →
            Spec.all_chars PyText.isspace pre = true →
            Spec.all_chars PyText.isspace post = true →
            SpecMore.starts_nonspace core = true →
            SpecMore.ends_nonspace core = true →
            called.1 = inr core)
       ∧ (Spec.all_chars PyText.isspace (CompletedProcess.stdout result)
            = true →
          called.1 = inr "")).
Proof.
  intros argv called Hrun. subst argv called.
  unfold MCPTrustVersion.version, mbind, M_bind.
  rewrite (_run_eq _ _ _ _ _ _ Hrun). cbn [Spec.child_outcome].
  unfold Spec.exit_ok.
  destruct (Z.eqb_spec (CompletedProcess.returncode result) 0) as [Hz|Hnz];
    cbn [fst snd mret M_ret]; repeat apply conj; try done.
  - intros _. repeat apply conj; [done| |].
    + intros pre core post -> Hpre Hpost Hstart Hend.
      by rewrite strip_core.
    + intros Hblank. by rewrite strip_blank.
Qed.

Lemma version_contract_witness :
  let self := MCPTrust.mk "/mock/mcptrust" in
  let newline := String (ascii_of_N 10) "" in
  let w :=
    Scripted.start
      (Scripted.scripted
         [Scripted.exited 0 ("mcptrust 0.1.0" +:+ newline) ""]) in
  (MCPTrustVersion.version self w).1 = inr "mcptrust 0.1.0"
  ∧ spawned (MCPTrustVersion.version self w).2
    = [["/mock/mcptrust"; "--version"]].
Proof.
  intros self newline w.
  destruct (version_contract self w
              (CompletedProcess.mk 0 ("mcptrust 0.1.0" +:+ newline) "")
              (Scripted.scripted [])) as (Hworld & _ & Hok); [reflexivity|].
  destruct (Hok eq_refl) as (_ & Hcore & _). split.
  - apply (Hcore "" "mcptrust 0.1.0" newline); reflexivity.
  - rewrite Hworld. reflexivity.
Defined.

(** ** Command errors *)

Lemma parse_error_is_usage_error sc sa err :
  MCPTrust._parse_server_command sc sa = inl err → ∃ msg, err = ValueError msg.
Proof.
  unfold MCPTrust._parse_server_command.
  destruct (Py.truthy_str sc && Py.truthy_list sa); [intros [= <-]; eauto|].
  destruct (Py.truthy_list sa); [done|].
  destruct (Py.truthy_str sc); [|intros [= <-]; eauto].
  destruct (shlex.split _); [intros [= <-]; eauto | done].
Qed.

(** X4: a command error that leaves [lock], [check] or [run] has an exit
    code other than 0 and the full argument vector of the child, which
    starts with the path of the binary; its string form starts with
    "mcptrust exited with code", the exit code, and the exit code again as
    "exit_code=". *)
Theorem raised_command_error `{Platform OS}
    (self : MCPTrust.t) (w w' : world OS)
    (sc : option string) (sa : option (list string))
    (lockfile preset : string) (pin vp require_provenance dry_run : bool)
    (bin_name : option string) (timeout : option Z)
    (log : option LogConfig.t) (receipt : option ReceiptConfig.t)
    (raise_on_fail : bool) (e : MCPTrustCommandError.t) :
  MCPTrust.lock self sc sa lockfile pin vp timeout log receipt w
    = (inl (CommandError e), w')
  ∨ MCPTrust.check self sc sa lockfile preset timeout log receipt
      raise_on_fail w = (inl (CommandError e), w')
  ∨ MCPTrust.run self lockfile require_provenance dry_run bin_name timeout
      log receipt raise_on_fail w = (inl (CommandError e), w') →
  MCPTrustCommandError.exit_code e ≠ 0%Z
  ∧ (∃ argv,
       MCPTrustCommandError.argv e = MCPTrust.bin_path self :: argv
       ∧ MCPTrustCommandError.argv e ∈ spawned w')
  ∧ ∃ rest,
      MCPTrustCommandError.__str__ e
      = "mcptrust exited with code "
        +:+ Py.str_int (MCPTrustCommandError.exit_code e)
        +:+ " | exit_code="
        +:+ Py.str_int (MCPTrustCommandError.exit_code e) +:+ rest.
Proof.
  intros Hraised.
  assert (Hfail : ∃ argv result,
    e = Spec.failure self argv result ∧ Spec.exit_ok result = false
    ∧ MCPTrust.bin_path self :: argv ∈ spawned w').
  { destruct Hraised as [Hlock | [Hcheck | Hrun]].
    - destruct (MCPTrust._parse_server_command sc sa) as [err|tokens]
        eqn:Hparse.
      { destruct (parse_error_is_usage_error _ _ _ Hparse) as [msg ->].
        by rewrite (lock_usage_error _ _ _ _ _ _ _ _ _ _ _ Hparse) in Hlock. }
      destruct (subprocess_run
        (MCPTrust.bin_path self ::
           Spec.lock_argv (Spec.log_flags log ++ Spec.receipt_flags receipt)
             lockfile pin vp tokens) timeout (host w))
        as [[name|result] os] eqn:Hchild;
        rewrite (lock_eq _ _ _ _ _ _ _ _ _ _ _ _ _ Hparse Hchild) in Hlock;
        cbn [Spec.child_outcome] in Hlock; [done|].
      destruct (Spec.exit_ok result) eqn:Hok; [done|].
      injection Hlock as <- <-. eexists _, result.
      repeat split; [done|]. cbn [spawned]. set_solver.
    - destruct (MCPTrust._parse_server_command sc sa) as [err|tokens]
        eqn:Hparse.
      { destruct (parse_error_is_usage_error _ _ _ Hparse) as [msg ->].
        by rewrite (check_usage_error _ _ _ _ _ _ _ _ _ _ _ Hparse) in Hcheck. }
      set (flags := Spec.log_flags log ++ Spec.receipt_flags receipt) in *.
      destruct (subprocess_run
        (MCPTrust.bin_path self :: Spec.diff_argv lockfile flags tokens)
        timeout (host w)) as [[name|diff] os1] eqn:Hdiff.
      { by rewrite (check_diff_raised _ _ _ _ _ _ _ _ _ _ _ _ _ Hparse Hdiff)
          in Hcheck. }
      destruct (subprocess_run
        (MCPTrust.bin_path self :: Spec.policy_argv preset lockfile flags tokens)
        timeout os1) as [[name|policy] os2] eqn:Hpolicy;
        rewrite (check_eq _ _ _ _ _ _ _ _ _ _ _ _ _ _ _ Hparse Hdiff Hpolicy)
          in Hcheck; [done|].
      unfold Spec.verdict in Hcheck.
      destruct (Spec.exit_ok diff) eqn:Hd, (Spec.exit_ok policy) eqn:Hp,
        raise_on_fail; try done; cbn in Hcheck; injection Hcheck as <- <-;
        eexists _, _; (repeat split; [done|]); cbn [spawned]; set_solver.
    - destruct (subprocess_run
        (MCPTrust.bin_path self ::
           Spec.run_argv lockfile
             (Spec.log_flags log ++ Spec.receipt_flags receipt)
             require_provenance dry_run bin_name) timeout (host w))
        as [[name|result] os] eqn:Hchild;
        rewrite (run_eq _ _ _ _ _ _ _ _ _ _ _ _ Hchild) in Hrun; [done|].
      destruct (Spec.exit_ok result) eqn:Hok; [done|].
      destruct raise_on_fail; [|done].
      injection Hrun as <- <-. eexists _, result.
      repeat split; [done|]. cbn [spawned]. set_solver. }
  destruct Hfail as (argv & result & -> & Hok & Hin).
  cbn [Spec.failure MCPTrustCommandError.exit_code MCPTrustCommandError.argv].
  repeat apply conj.
  - unfold Spec.exit_ok in Hok. by apply Z.eqb_neq.
  - by exists argv.
  - rewrite __str___eq. cbn [Spec.failure MCPTrustCommandError.message
      MCPTrustCommandError.exit_code MCPTrustCommandError.stderr].
    eexists. rewrite !append_assoc. reflexivity.
Qed.

Lemma raised_command_error_witness :
  let self := MCPTrust.mk "/mock/mcptrust" in
  let w := Scripted.start (Scripted.scripted [Scripted.exited 3 "" ""]) in
  let e :=
    MCPTrustCommandError.mk "mcptrust exited with code 3" 3
      ["/mock/mcptrust"; "run"; "--lock"; "mcp-lock.json";
       "--require-provenance=false"] "" "" in
  (MCPTrust.run self Defaults.lockfile false false None None None None
     Defaults.run_raise_on_fail w).1 = inl (CommandError e)
  ∧ MCPTrustCommandError.exit_code e ≠ 0%Z
  ∧ MCPTrustCommandError.__str__ e
    = "mcptrust exited with code 3 | exit_code=3".
Proof.
  intros self w e.
  destruct (raised_command_error self w
              (World (Scripted.scripted []) [MCPTrustCommandError.argv e])
              None None Defaults.lockfile Defaults.preset true false false
              false None None None None Defaults.run_raise_on_fail e)
    as (Hcode & _ & _); [right; right; reflexivity|].
  split; [reflexivity|]. split; [exact Hcode | reflexivity].
Defined.

(** X5: the string form of a command error with an empty error stream ends
    after the exit code; with an error stream of at most 200 characters it
    shows the whole stream, in [repr] form, and no ellipsis is added. *)
Theorem short_stderr_message (e : MCPTrustCommandError.t) :
  let head :=
    MCPTrustCommandError.message e +:+ " | exit_code="
    +:+ Py.str_int (MCPTrustCommandError.exit_code e) in
  (MCPTrustCommandError.stderr e = "" →
     MCPTrustCommandError.__str__ e = head)
  ∧ (MCPTrustCommandError.stderr e ≠ "" →
     String.length (MCPTrustCommandError.stderr e) ≤ 200 →
       MCPTrustCommandError.__str__ e
       = head +:+ " | stderr=" +:+ Py.repr (MCPTrustCommandError.stderr e)).
Proof.
  intros head. subst head. rewrite __str___eq. split.
  - intros ->. cbn [Py.nonempty]. by rewrite append_nil_r.
  - intros Hne Hlen.
    destruct (MCPTrustCommandError.stderr e) as [|c s] eqn:Hs; [done|].
    cbn [Py.nonempty]. unfold MCPTrustCommandError.stderr_preview.
    destruct (Nat.ltb_spec 200 (String.length (String c s))); [lia|].
    by rewrite !append_assoc.
Qed.

Lemma short_stderr_message_witness :
  MCPTrustCommandError.__str__
    (MCPTrustCommandError.mk "test error" 42 ["mcptrust"; "lock"] "out" "err")
  = "test error | exit_code=42 | stderr='err'"
  ∧ MCPTrustCommandError.__str__
      (MCPTrustCommandError.mk "msg" 7 [] "" "")
    = "msg | exit_code=7".
Proof.
  split.
  - destruct (short_stderr_message
                (MCPTrustCommandError.mk "test error" 42 ["mcptrust"; "lock"]
                   "out" "err")) as (_ & Hshort).
    rewrite Hshort; [reflexivity | discriminate | vm_compute; lia].
  - destruct (short_stderr_message
                (MCPTrustCommandError.mk "msg" 7 [] "" "")) as (Hempty & _).
    rewrite Hempty; reflexivity.
Defined.

(** ** [MCPTrustGuard]: constructor and [ensure] *)



(** [ensure] without the lock step. *)
Lemma ensure_skips_lock `{Platform OS}
    (guard : MCPTrustGuard.t) (w : world OS)
    (pin vp raise_on_fail lock_if_missing : bool) :
  os_path_exists (host w) (MCPTrustGuard.lockfile guard) = true
  ∨ lock_if_missing = false →
  MCPTrustGuard.ensure guard pin vp raise_on_fail lock_if_missing w
  = MCPTrustGuard.check guard raise_on_fail w.
Proof.
  intros Hskip. unfold MCPTrustGuard.ensure, mbind, M_bind, path_exists.
  replace (lock_if_missing
           && negb (os_path_exists (host w) (MCPTrustGuard.lockfile guard)))
    with false; [done|].
  destruct Hskip as [-> | ->]; by rewrite ?andb_false_r.
Qed.

(** X7: with the lockfile in place, or with [lock_if_missing] unset,
    [ensure] is [check]: it spawns no lock child, and [pin] and
    [verify_provenance] play no part. *)
Theorem ensure_without_lock `{Platform OS}
    (guard : MCPTrustGuard.t) (w : world OS)
    (pin vp raise_on_fail lock_if_missing : bool) :
  os_path_exists (host w) (MCPTrustGuard.lockfile guard) = true
  ∨ lock_if_missing = false →
  MCPTrustGuard.ensure guard pin vp raise_on_fail lock_if_missing w
  = MCPTrustGuard.check guard raise_on_fail w.
Proof. apply ensure_skips_lock. Qed.

Lemma ensure_without_lock_witness :
  let guard :=
    MCPTrustGuard.mk (MCPTrust.mk "/mock/mcptrust") None
      (Some ["npx"; "server"]) "test.json" "strict" None None in
  let w :=
    Scripted.start
      (Scripted.mk ∅ ∅ {["test.json"]}
         [Scripted.exited 0 "" ""; Scripted.exited 0 "" ""]) in
  os_path_exists (host w) "test.json" = true
  ∧ MCPTrustGuard.ensure guard true false true true w
    = MCPTrustGuard.check guard true w.
Proof.
  intros guard w.
  assert (Hexists : os_path_exists (host w) "test.json" = true)
    by (vm_compute; reflexivity).
  split; [exact Hexists|].
  apply ensure_without_lock. left. exact Hexists.
Defined.

(** X8: with the lockfile missing and [lock_if_missing] set, [ensure]
    locks first.  A lock child that exits with another code than 0 makes
    [ensure] raise the command error of the lock, also with [raise_on_fail]
    unset, and no check is made; a lock child that exits with 0 is followed
    by [check], in the world that the lock left, whether the lockfile exists
    by then or not. *)
Theorem ensure_locks_first `{Platform OS}
    (guard : MCPTrustGuard.t) (w : world OS)
    (pin vp raise_on_fail : bool)
    (tokens : list string) (result : CompletedProcess.t) (os : OS) :
  let argv :=
    [MCPTrust.bin_path (MCPTrustGuard.mcp guard); "lock"]
      ++ MCPTrust._build_common_flags (MCPTrustGuard.log guard)
           (MCPTrustGuard.receipt guard)
      ++ ["--output"; MCPTrustGuard.lockfile guard] ++ Spec.when pin "--pin"
      ++ Spec.when vp "--verify-provenance" ++ ["--"] ++ tokens in
  let w' := World os (spawned w ++ [argv]) in
  let ensured := MCPTrustGuard.ensure guard pin vp raise_on_fail true w in
  MCPTrust._parse_server_command (MCPTrustGuard.server_command guard)
    (MCPTrustGuard.server_argv guard) = inr tokens →
  os_path_exists (host w) (MCPTrustGuard.lockfile guard) = false →
  subprocess_run argv None (host w) = (inr result, os) →
  (CompletedProcess.returncode result ≠ 0%Z →
     ensured
     = (inl (CommandError
               (Spec.failure (MCPTrustGuard.mcp guard) (tail argv) result)),
        w'))
  ∧ (CompletedProcess.returncode result = 0%Z →
       ensured = MCPTrustGuard.check guard raise_on_fail w').
Proof.
  intros argv w' ensured Hparse Hmissing Hrun. subst argv w' ensured.
  cbn [app tail] in *. rewrite build_common_flags_eq in *.
  unfold MCPTrustGuard.ensure, mbind, M_bind, path_exists.
  rewrite Hmissing. cbn [andb negb].
  unfold MCPTrustGuard.lock.
  rewrite (lock_eq _ _ _ _ _ _ _ _ _ _ _ _ _ Hparse Hrun).
  cbn [Spec.child_outcome]. unfold Spec.exit_ok. split.
  - intros Hcode%Z.eqb_neq. by rewrite Hcode.
  - intros Hcode%Z.eqb_eq. by rewrite Hcode.
Qed.

Lemma ensure_locks_first_witness :
  let guard :=
    MCPTrustGuard.mk (MCPTrust.mk "/mock/mcptrust") None
      (Some ["npx"; "server"]) "test.json" "strict" None None in
  let w := Scripted.start (Scripted.scripted [Scripted.exited 1 "" "denied"]) in
  os_path_exists (host w) "test.json" = false
  ∧ MCPTrustGuard.ensure guard true false false true w
    = (inl (CommandError (MCPTrustCommandError.mk
         "mcptrust exited with code 1" 1
         ["/mock/mcptrust"; "lock"; "--output"; "test.json"; "--pin"; "--";
          "npx"; "server"] "" "denied")),
       World (Scripted.scripted [])
         [["/mock/mcptrust"; "lock"; "--output"; "test.json"; "--pin"; "--";
           "npx"; "server"]]).
Proof.
  intros guard w.
  assert (Hmissing : os_path_exists (host w) "test.json" = false)
    by (vm_compute; reflexivity).
  split; [exact Hmissing|].
  destruct (ensure_locks_first guard w true false false ["npx"; "server"]
              (CompletedProcess.mk 1 "" "denied") (Scripted.scripted []))
    as (Hfail & _); [reflexivity | exact Hmissing | reflexivity |].
  rewrite Hfail; [reflexivity | discriminate].
Defined.

(** ** The hooks *)

Section hooks.
Context `{Platform OS}.

(** [ensure] through the hooks, with the lockfile in place and two children
    that exit. *)
Lemma call_ensure_checked (guard : MCPTrustGuard.t) (kw : Kwargs.ensure)
    (w : world OS) (tokens : list string)
    (diff policy : CompletedProcess.t) (os1 os2 : OS) :
  let self := MCPTrustGuard.mcp guard in
  let flags :=
    Spec.log_flags (MCPTrustGuard.log guard)
      ++ Spec.receipt_flags (MCPTrustGuard.receipt guard) in
  let diff_argv := Spec.diff_argv (MCPTrustGuard.lockfile guard) flags tokens in
  let policy_argv :=
    Spec.policy_argv (MCPTrustGuard.preset guard)
      (MCPTrustGuard.lockfile guard) flags tokens in
  MCPTrust._parse_server_command (MCPTrustGuard.server_command guard)
    (MCPTrustGuard.server_argv guard) = inr tokens →
  os_path_exists (host w) (MCPTrustGuard.lockfile guard) = true →
  subprocess_run (MCPTrust.bin_path self :: diff_argv) None (host w)
    = (inr diff, os1) →
  subprocess_run (MCPTrust.bin_path self :: policy_argv) None os1
    = (inr policy, os2) →
  autogen_hooks.call_ensure guard kw w
  = (Spec.verdict self diff_argv policy_argv diff policy
       (default true (Kwargs.raise_on_fail kw)),
     World os2 (spawned w ++ [MCPTrust.bin_path self :: diff_argv;
                              MCPTrust.bin_path self :: policy_argv])).
Proof.
  intros self flags diff_argv policy_argv Hparse Hexists Hdiff Hpolicy.
  unfold autogen_hooks.call_ensure.
  rewrite ensure_skips_lock by (by left).
  unfold MCPTrustGuard.check.
  by rewrite (check_eq _ _ _ _ _ _ _ _ _ _ _ _ _ _ _ Hparse Hdiff Hpolicy).
Qed.
End hooks.

(** X9: [wrap_runner], for a guard whose lockfile is in place and whose two
    check children exit.  With the keyword arguments left out, a step that
    exits with another code than 0 makes the wrapper raise the command error
    of the first such step, and the wrapped function is not called; when
    both steps exit with 0 the wrapper is the wrapped function, called with
    the same arguments after the two children.  With [raise_on_fail] passed
    as [False] the wrapped function is called whatever the exit codes. *)
Theorem wrap_runner_gate `{Platform OS} {Args R : Type}
    (fn : Args → M OS R) (args : Args)
    (guard : MCPTrustGuard.t) (w : world OS) (tokens : list string)
    (diff policy : CompletedProcess.t) (os1 os2 : OS) :
  let self := MCPTrustGuard.mcp guard in
  let flags :=
    MCPTrust._build_common_flags (MCPTrustGuard.log guard)
      (MCPTrustGuard.receipt guard) in
  let diff_argv :=
    [MCPTrust.bin_path self; "diff"; "--lockfile";
     MCPTrustGuard.lockfile guard] ++ flags ++ ["--"] ++ tokens in
  let policy_argv :=
    [MCPTrust.bin_path self; "policy"; "check"; "--preset";
     MCPTrustGuard.preset guard; "--lockfile"; MCPTrustGuard.lockfile guard]
      ++ flags ++ ["--"] ++ tokens in
  let w' := World os2 (spawned w ++ [diff_argv; policy_argv]) in
  let unchecked := Kwargs.Ensure None None (Some false) None in
  MCPTrust._parse_server_command (MCPTrustGuard.server_command guard)
    (MCPTrustGuard.server_argv guard) = inr tokens →
  os_path_exists (host w) (MCPTrustGuard.lockfile guard) = true →
  subprocess_run diff_argv None (host w) = (inr diff, os1) →
  subprocess_run policy_argv None os1 = (inr policy, os2) →
  (CompletedProcess.returncode diff ≠ 0%Z →
     autogen_hooks.wrap_runner fn guard Kwargs.no_ensure args w
     = (inl (CommandError (Spec.failure self (tail diff_argv) diff)), w'))
  ∧ (CompletedProcess.returncode diff = 0%Z →
     CompletedProcess.returncode policy ≠ 0%Z →
       autogen_hooks.wrap_runner fn guard Kwargs.no_ensure args w
       = (inl (CommandError (Spec.failure self (tail policy_argv) policy)),
          w'))
  ∧ (CompletedProcess.returncode diff = 0%Z →
     CompletedProcess.returncode policy = 0%Z →
       autogen_hooks.wrap_runner fn guard Kwargs.no_ensure args w
       = fn args w')
  ∧ autogen_hooks.wrap_runner fn guard unchecked args w = fn args w'.
Proof.
  intros self flags diff_argv policy_argv w' unchecked
    Hparse Hexists Hdiff Hpolicy.
  subst self flags diff_argv policy_argv w' unchecked. cbn [app tail] in *.
  rewrite build_common_flags_eq in *.
  unfold autogen_hooks.wrap_runner, mbind, M_bind.
  rewrite !(call_ensure_checked _ _ _ _ _ _ _ _ Hparse Hexists Hdiff Hpolicy).
  unfold Spec.verdict, Spec.exit_ok. cbn [Kwargs.raise_on_fail default].
  repeat apply conj.
  - intros Hd%Z.eqb_neq. by rewrite Hd.
  - intros Hd%Z.eqb_eq Hp%Z.eqb_neq. by rewrite Hd, Hp.
  - intros Hd%Z.eqb_eq Hp%Z.eqb_eq. by rewrite Hd, Hp.
  - done.
Qed.

Lemma wrap_runner_gate_witness :
  let guard :=
    MCPTrustGuard.mk (MCPTrust.mk "/mock/mcptrust") None
      (Some ["npx"; "server"]) "test.json" "strict" None None in
  let w :=
    Scripted.start
      (Scripted.mk ∅ ∅ {["test.json"]}
         [Scripted.exited 1 "drift" ""; Scripted.exited 0 "" ""]) in
  let fn (args : string) : M Scripted.os string := mret ("ran " +:+ args) in
  (autogen_hooks.wrap_runner fn guard Kwargs.no_ensure "task" w).1
  = inl (CommandError (MCPTrustCommandError.mk
      "mcptrust exited with code 1" 1
      ["/mock/mcptrust"; "diff"; "--lockfile"; "test.json"; "--";
       "npx"; "server"] "drift" ""))
  ∧ (autogen_hooks.wrap_runner fn guard
       (Kwargs.Ensure None None (Some false) None) "task" w).1
    = inr "ran task".
Proof.
  intros guard w fn.
  destruct (wrap_runner_gate fn "task" guard w ["npx"; "server"]
              (CompletedProcess.mk 1 "drift" "") (CompletedProcess.mk 0 "" "")
              (Scripted.mk ∅ ∅ {["test.json"]} [Scripted.exited 0 "" ""])
              (Scripted.mk ∅ ∅ {["test.json"]} []))
    as (Hdrift & _ & _ & Hunchecked);
    [reflexivity | vm_compute; reflexivity | reflexivity | reflexivity |].
  split.
  - rewrite Hdrift; [reflexivity | discriminate].
  - rewrite Hunchecked. reflexivity.
Defined.

(** X10: the callback of [before_chat_callback] takes no notice of its
    arguments and returns [None]: the result of the check is dropped.  For a
    guard whose lockfile is in place and whose two check children exit, it
    raises the command error of the first failed step with the keyword
    arguments left out, and with [raise_on_fail] passed as [False] it
    returns [None] whatever the exit codes, so that a failed check goes
    unnoticed. *)
Theorem before_chat_callback_result `{Platform OS} {Args : Type}
    (args args' : Args)
    (guard : MCPTrustGuard.t) (kw : Kwargs.ensure) (w : world OS)
    (tokens : list string) (diff policy : CompletedProcess.t) (os1 os2 : OS) :
  let self := MCPTrustGuard.mcp guard in
  let flags :=
    MCPTrust._build_common_flags (MCPTrustGuard.log guard)
      (MCPTrustGuard.receipt guard) in
  let diff_argv :=
    [MCPTrust.bin_path self; "diff"; "--lockfile";
     MCPTrustGuard.lockfile guard] ++ flags ++ ["--"] ++ tokens in
  let policy_argv :=
    [MCPTrust.bin_path self; "policy"; "check"; "--preset";
     MCPTrustGuard.preset guard; "--lockfile"; MCPTrustGuard.lockfile guard]
      ++ flags ++ ["--"] ++ tokens in
  let w' := World os2 (spawned w ++ [diff_argv; policy_argv]) in
  let passed :=
    ((CompletedProcess.returncode diff =? 0)
     && (CompletedProcess.returncode policy =? 0))%Z in
  let callback := autogen_hooks.before_chat_callback guard kw in
  MCPTrust._parse_server_command (MCPTrustGuard.server_command guard)
    (MCPTrustGuard.server_argv guard) = inr tokens →
  os_path_exists (host w) (MCPTrustGuard.lockfile guard) = true →
  subprocess_run diff_argv None (host w) = (inr diff, os1) →
  subprocess_run policy_argv None os1 = (inr policy, os2) →
  callback args w = callback args' w
  ∧ (Kwargs.raise_on_fail kw = Some false ∨ passed = true →
       callback args w = (inr (), w'))
  ∧ (Kwargs.raise_on_fail kw ≠ Some false → passed = false →
       ∃ e, callback args w = (inl (CommandError e), w')).
Proof.
  intros self flags diff_argv policy_argv w' passed callback
    Hparse Hexists Hdiff Hpolicy.
  subst self flags diff_argv policy_argv w' callback. cbn [app] in *.
  rewrite build_common_flags_eq in *.
  unfold autogen_hooks.before_chat_callback, mbind, M_bind.
  rewrite !(call_ensure_checked _ _ _ _ _ _ _ _ Hparse Hexists Hdiff Hpolicy).
  unfold Spec.verdict, Spec.exit_ok. fold passed.
  repeat apply conj; [done| |].
  - intros [-> | ->]; by rewrite ?andb_false_r.
  - intros Hkw ->.
    destruct (Kwargs.raise_on_fail kw) as [[|]|]; try done; by eexists.
Qed.

Lemma before_chat_callback_result_witness :
  let guard :=
    MCPTrustGuard.mk (MCPTrust.mk "/mock/mcptrust") None
      (Some ["npx"; "server"]) "test.json" "strict" None None in
  let w :=
    Scripted.start
      (Scripted.mk ∅ ∅ {["test.json"]}
         [Scripted.exited 1 "drift" ""; Scripted.exited 0 "" ""]) in
  (autogen_hooks.before_chat_callback guard
     (Kwargs.Ensure None None (Some false) None) "message" w).1
  = inr ().
Proof.
  intros guard w.
  destruct (before_chat_callback_result "message" "other" guard
              (Kwargs.Ensure None None (Some false) None) w ["npx"; "server"]
              (CompletedProcess.mk 1 "drift" "") (CompletedProcess.mk 0 "" "")
              (Scripted.mk ∅ ∅ {["test.json"]} [Scripted.exited 0 "" ""])
              (Scripted.mk ∅ ∅ {["test.json"]} []))
    as (_ & Hsilent & _);
    [reflexivity | vm_compute; reflexivity | reflexivity | reflexivity |].
  rewrite Hsilent; [reflexivity | left; reflexivity].
Defined.

(** ** Results that are returned when failures are raised *)

Section raising.
Context `{Platform OS}.

Lemma check_raising_returns_passed (self : MCPTrust.t)
    (sc : option string) (sa : option (list string))
    (lockfile preset : string) (timeout : option Z)
    (log : option LogConfig.t) (receipt : option ReceiptConfig.t)
    (w : world OS) (r : CheckResult.t) :
  (MCPTrust.check self sc sa lockfile preset timeout log receipt true w).1
    = inr r →
  CheckResult.passed r = true.
Proof.
  destruct (MCPTrust._parse_server_command sc sa) as [err|tokens] eqn:Hparse.
  { by rewrite (check_usage_error _ _ _ _ _ _ _ _ _ _ _ Hparse). }
  set (flags := Spec.log_flags log ++ Spec.receipt_flags receipt).
  destruct (subprocess_run
    (MCPTrust.bin_path self :: Spec.diff_argv lockfile flags tokens)
    timeout (host w)) as [[name|diff] os1] eqn:Hdiff.
  { by rewrite (check_diff_raised _ _ _ _ _ _ _ _ _ _ _ _ _ Hparse Hdiff). }
  destruct (subprocess_run
    (MCPTrust.bin_path self :: Spec.policy_argv preset lockfile flags tokens)
    timeout os1) as [[name|policy] os2] eqn:Hpolicy;
    rewrite (check_eq _ _ _ _ _ _ _ _ _ _ _ _ _ _ _ Hparse Hdiff Hpolicy);
    [done|].
  unfold Spec.verdict. cbn [fst andb].
  destruct (Spec.exit_ok diff && Spec.exit_ok policy) eqn:Hpassed; [|done].
  by intros [= <-].
Qed.

Lemma ensure_raising_returns_passed (guard : MCPTrustGuard.t)
    (pin vp lock_if_missing : bool) (w : world OS) (r : CheckResult.t) :
  (MCPTrustGuard.ensure guard pin vp true lock_if_missing w).1 = inr r →
  CheckResult.passed r = true.
Proof.
  unfold MCPTrustGuard.ensure, mbind, M_bind, path_exists.
  destruct (lock_if_missing && _).
  - destruct (MCPTrustGuard.lock guard pin vp w) as [[e|locked] w'];
      [done|]. cbn [mret M_ret]. apply check_raising_returns_passed.
  - cbn [mret M_ret]. apply check_raising_returns_passed.
Qed.
End raising.

(** X11: what [check] with [raise_on_fail] set, [ensure] with its default
    [raise_on_fail], and [ensure_trusted_mcp_server] return is a result
    that passed: a failed check never comes back as a value from them.
    [ensure_trusted_mcp_server] builds the guard from its keyword arguments,
    with "mcp-lock.json" and "baseline" for a lockfile and a preset left
    out, and fails as the constructor fails. *)
Theorem raising_calls_return_passed `{Platform OS}
    (w : world OS) (r : CheckResult.t) :
  (∀ self sc sa lockfile preset timeout log receipt,
     (MCPTrust.check self sc sa lockfile preset timeout log receipt true w).1
       = inr r →
     CheckResult.passed r = true)
  ∧ (∀ guard pin vp lock_if_missing,
       (MCPTrustGuard.ensure guard pin vp true lock_if_missing w).1 = inr r →
       CheckResult.passed r = true)
  ∧ (∀ kwargs,
       (autogen_hooks.ensure_trusted_mcp_server kwargs w).1 = inr r →
       CheckResult.passed r = true)
  ∧ (∀ kwargs e w',
       MCPTrustGuard.__init__ (Kwargs.mcp kwargs)
         (Kwargs.server_command kwargs) (Kwargs.server_argv kwargs)
         (default "mcp-lock.json" (Kwargs.lockfile kwargs))
         (default "baseline" (Kwargs.preset kwargs))
         (Kwargs.log kwargs) (Kwargs.receipt kwargs) w = (inl e, w') →
       autogen_hooks.ensure_trusted_mcp_server kwargs w = (inl e, w')).
Proof.
  repeat apply conj.
  - intros *. apply check_raising_returns_passed.
  - intros *. apply ensure_raising_returns_passed.
  - intros kwargs.
    unfold autogen_hooks.ensure_trusted_mcp_server, mbind, M_bind.
    destruct (autogen_hooks.call_guard kwargs w) as [[e|guard] w']; [done|].
    apply ensure_raising_returns_passed.
  - intros kwargs e w' Hinit.
    unfold autogen_hooks.ensure_trusted_mcp_server, mbind, M_bind,
      autogen_hooks.call_guard.
    by rewrite Hinit.
Qed.

Lemma raising_calls_return_passed_witness :
  let w :=
    Scripted.start
      (Scripted.mk ∅ ∅ {["mcp-lock.json"]}
         [Scripted.exited 0 "" ""; Scripted.exited 0 "ok" ""]) in
  let kwargs :=
    Kwargs.Guard (Some (MCPTrust.mk "/mock/mcptrust")) None
      (Some ["npx"; "server"]) None (Some "strict") None None in
  let r := CheckResult.mk true "" "" "ok" "" in
  (autogen_hooks.ensure_trusted_mcp_server kwargs w).1 = inr r
  ∧ CheckResult.passed r = true.
Proof.
  intros w kwargs r.
  assert (Hr : (autogen_hooks.ensure_trusted_mcp_server kwargs w).1 = inr r)
    by (vm_compute; reflexivity).
  split; [exact Hr|].
  destruct (raising_calls_return_passed w r) as (_ & _ & Hhook & _).
  exact (Hhook kwargs Hr).
Defined.

(** X12: the hooks of the CrewAI package, for any guard: when [ensure]
    raises, the callback and the wrapper raise the same exception in the
    same world and the wrapped kickoff function is not called; when [ensure]
    returns, the callback returns [None] and the wrapper is the kickoff
    function, called with the same arguments in the world that [ensure]
    left.  [ensure_trusted_mcp_server] fails as the constructor of the guard
    fails, without calling [ensure]. *)
Theorem crewai_hooks_guarded
    {OS Guard GuardKwargs EnsureKwargs Args R : Type}
    (MCPTrustGuard : GuardKwargs → M OS Guard)
    (ensure : Guard → EnsureKwargs → M OS CheckResult.t)
    (no_kwargs : EnsureKwargs)
    (kickoff_fn : Args → M OS R) (args : Args)
    (guard : Guard) (ensure_kwargs : EnsureKwargs) (w w' : world OS) :
  (∀ e, ensure guard ensure_kwargs w = (inl e, w') →
     crewai_hooks.wrap_kickoff ensure kickoff_fn guard ensure_kwargs args w
       = (inl e, w')
     ∧ crewai_hooks.before_kickoff_callback ensure guard ensure_kwargs args w
       = (inl e, w'))
  ∧ (∀ r, ensure guard ensure_kwargs w = (inr r, w') →
       crewai_hooks.wrap_kickoff ensure kickoff_fn guard ensure_kwargs args w
         = kickoff_fn args w'
       ∧ crewai_hooks.before_kickoff_callback ensure guard ensure_kwargs
           args w = (inr (), w'))
  ∧ (∀ kwargs e,
       MCPTrustGuard kwargs w = (inl e, w') →
       crewai_hooks.ensure_trusted_mcp_server MCPTrustGuard ensure no_kwargs
         kwargs w = (inl e, w'))
  ∧ (∀ kwargs made,
       MCPTrustGuard kwargs w = (inr made, w') →
       crewai_hooks.ensure_trusted_mcp_server MCPTrustGuard ensure no_kwargs
         kwargs w = ensure made no_kwargs w').
Proof.
  unfold crewai_hooks.wrap_kickoff, crewai_hooks.before_kickoff_callback,
    crewai_hooks.ensure_trusted_mcp_server, mbind, M_bind.
  repeat apply conj.
  - intros e ->. done.
  - intros r ->. done.
  - intros kwargs e ->. done.
  - intros kwargs made ->. done.
Qed.

Lemma crewai_hooks_guarded_witness :
  let guard := MCPTrustGuard.mk (MCPTrust.mk "/mock/mcptrust") None
      (Some ["npx"; "server"]) "test.json" "strict" None None in
  let w :=
    Scripted.start
      (Scripted.mk ∅ ∅ {["test.json"]}
         [Scripted.exited 1 "drift" ""; Scripted.exited 0 "" ""]) in
  let kickoff (args : string) : M Scripted.os string :=
    mret ("kicked off " +:+ args) in
  ∃ e w',
    autogen_hooks.call_ensure guard Kwargs.no_ensure w = (inl e, w')
    ∧ crewai_hooks.wrap_kickoff autogen_hooks.call_ensure kickoff guard
        Kwargs.no_ensure "crew" w = (inl e, w').
Proof.
  intros guard w kickoff.
  destruct (autogen_hooks.call_ensure guard Kwargs.no_ensure w)
    as [[e|r] w'] eqn:Hensure; [|vm_compute in Hensure; discriminate].
  exists e, w'. split; [reflexivity|].
  destruct (crewai_hooks_guarded autogen_hooks.call_guard
              autogen_hooks.call_ensure Kwargs.no_ensure kickoff "crew"
              guard Kwargs.no_ensure w w') as (Hraise & _).
  destruct (Hraise e Hensure) as [Hwrap _]. exact Hwrap.
Defined.

(** ** [TrustedMCPServer] *)

(** X13: the constructor of [TrustedMCPServer] checks nothing.  A server
    made with neither form of the server command is made all the same;
    its [lock] and [check] raise the usage error "must specify" before any
    child process is spawned; its [run] does not look at the server command
    at all: it spawns its one child, and does what the [run] of a server
    made with any other server command does. *)
Theorem langchain_server_unchecked `{Platform OS}
    (mcp : MCPTrust.t) (lockfile preset : string) (w : world OS)
    (pin vp require_provenance dry_run raise_on_fail : bool)
    (bin_name : option string) (timeout : option Z)
    (log : option LogConfig.t) (receipt : option ReceiptConfig.t) :
  let bare := TrustedMCPServer.__init__ mcp None None lockfile preset in
  let must_specify :=
    ValueError "Must specify server_command or server_argv" in
  Spec.raised_before_spawn
    (TrustedMCPServer.lock bare pin vp timeout log receipt w) w must_specify
  ∧ Spec.raised_before_spawn
      (TrustedMCPServer.check bare timeout log receipt raise_on_fail w) w
      must_specify
  ∧ (∀ sc sa,
       TrustedMCPServer.run
         (TrustedMCPServer.__init__ mcp sc sa lockfile preset)
         require_provenance dry_run bin_name timeout log receipt
         raise_on_fail w
       = TrustedMCPServer.run bare require_provenance dry_run bin_name
           timeout log receipt raise_on_fail w)
  ∧ ∃ argv,
      spawned
        (TrustedMCPServer.run bare require_provenance dry_run bin_name
           timeout log receipt raise_on_fail w).2
      = spawned w ++ [[MCPTrust.bin_path mcp; "run"; "--lock"; lockfile]
                      ++ argv].
Proof.
  intros bare must_specify. subst bare must_specify.
  unfold Spec.raised_before_spawn. repeat apply conj; try done.
  unfold TrustedMCPServer.run. cbn [TrustedMCPServer.mcp
    TrustedMCPServer.lockfile TrustedMCPServer.__init__].
  rewrite run_spawned. eexists. reflexivity.
Qed.

(** ** [tools_from_schema] *)

Section tools.
Import tools.

Lemma extract_eq (tool_list result : list value) :
  extract tool_list result = result ++ omap SpecMore.entry_of tool_list.
Proof.
  revert result. induction tool_list as [|v tool_list IH]; intros result.
  { by rewrite app_nil_r. }
  destruct v as [| | | | |tool|]; cbn [extract omap list_omap
    SpecMore.entry_of]; try apply IH.
  destruct (truthy (get tool "name" VNone)); cbn [negb]; [|apply IH].
  rewrite IH, <- (assoc_L (++)). cbn [app]. unfold get.
  by destruct (tool !! "inputSchema"), (tool !! "input_schema").
Qed.

Lemma omap_length_le {A B} (f : A → option B) (l : list A) :
  length (omap f l) ≤ length l.
Proof.
  induction l as [|x l IH]; [done|]. cbn [omap list_omap].
  destruct (f x); simpl; lia.
Qed.

Lemma tools_of_schema_of (tool_list : list value) :
  tools_from_schema (SpecMore.schema_of tool_list)
  = omap SpecMore.entry_of tool_list.
Proof.
  unfold tools_from_schema, SpecMore.schema_of, get.
  rewrite lookup_singleton_eq. simpl. by rewrite extract_eq.
Qed.

Lemma tool_key_lookup (k : string) (a b c : value) :
  ({[ "name" := a; "description" := b; "input_schema" := c ]}
     : gmap string value) !! k
  = if decide (k = "name") then Some a
    else if decide (k = "description") then Some b
    else if decide (k = "input_schema") then Some c
    else None.
Proof.
  rewrite !lookup_insert, lookup_singleton.
  repeat case_decide; congruence.
Qed.

Lemma entry_of_extracted (v w : value) :
  SpecMore.entry_of v = Some w → SpecMore.is_extracted_tool w.
Proof.
  destruct v as [| | | | |tool|]; try done. cbn [SpecMore.entry_of].
  destruct (truthy (get tool "name" VNone)) eqn:Hname; [|done].
  intros [= <-]. cbn [SpecMore.is_extracted_tool]. split.
  - rewrite !dom_insert_L, dom_singleton_L. unfold SpecMore.tool_keys.
    set_solver.
  - unfold get at 1. by rewrite tool_key_lookup.
Qed.

Lemma extracted_entry_of (v : value) :
  SpecMore.is_extracted_tool v → SpecMore.entry_of v = Some v.
Proof.
  destruct v as [| | | | |d|]; try done.
  cbn [SpecMore.is_extracted_tool SpecMore.entry_of]. intros [Hdom ->].
  assert (Hkey : ∀ k, is_Some (d !! k) ↔ k ∈ SpecMore.tool_keys).
  { intros k. by rewrite <- Hdom, elem_of_dom. }
  assert (Hout : d !! "inputSchema" = None).
  { apply eq_None_not_Some. rewrite Hkey. unfold SpecMore.tool_keys.
    rewrite !elem_of_union, !elem_of_singleton. intros [[?|?]|?]; done. }
  destruct (proj2 (Hkey "name")) as [a Ha];
    [unfold SpecMore.tool_keys; set_solver|].
  destruct (proj2 (Hkey "description")) as [b Hb];
    [unfold SpecMore.tool_keys; set_solver|].
  destruct (proj2 (Hkey "input_schema")) as [c Hc];
    [unfold SpecMore.tool_keys; set_solver|].
  unfold get. rewrite Hout, Ha, Hb, Hc. cbn [default]. do 2 f_equal.
  apply map_eq. intros k. rewrite tool_key_lookup.
  repeat case_decide; subst; try done.
  symmetry. apply eq_None_not_Some. rewrite Hkey. unfold SpecMore.tool_keys.
  rewrite !elem_of_union, !elem_of_singleton. tauto.
Qed.
End tools.

(** X14: the loop of [tools_from_schema] is a filter and a map: every
    element of the list of tools gives at most one tool, independently of the
    others and in the order of the list; an element that is no dictionary, or
    whose name is missing or not true, gives none.  So the result is no
    longer than the list, and the tools of two lists put end to end are the
    tools of the first followed by the tools of the second. *)
Theorem tools_from_schema_filter_map (tool_list : list tools.value) :
  tools.tools_from_schema (SpecMore.schema_of tool_list)
  = omap SpecMore.entry_of tool_list
  ∧ length (tools.tools_from_schema (SpecMore.schema_of tool_list))
    ≤ length tool_list
  ∧ (∀ more,
       tools.tools_from_schema (SpecMore.schema_of (tool_list ++ more))
       = tools.tools_from_schema (SpecMore.schema_of tool_list)
         ++ tools.tools_from_schema (SpecMore.schema_of more))
  ∧ (∀ before junk,
       (∀ d, junk = tools.VDict d →
          tools.truthy (tools.get d "name" tools.VNone) = false) →
       tools.tools_from_schema
         (SpecMore.schema_of (before ++ junk :: tool_list))
       = tools.tools_from_schema (SpecMore.schema_of (before ++ tool_list))).
Proof.
  rewrite !tools_of_schema_of. repeat apply conj.
  - done.
  - apply omap_length_le.
  - intros more. by rewrite !tools_of_schema_of, omap_app.
  - intros before junk Hjunk. rewrite !tools_of_schema_of, !omap_app.
    f_equal. cbn [omap list_omap].
    replace (SpecMore.entry_of junk) with (@None tools.value); [done|].
    destruct junk as [| | | | |d|]; try done. cbn [SpecMore.entry_of].
    by rewrite (Hjunk d eq_refl).
Qed.

Lemma tools_from_schema_filter_map_witness :
  let valid name : tools.value := tools.VDict {[ "name" := tools.VStr name ]} in
  let nameless : tools.value :=
    tools.VDict {[ "description" := tools.VStr "no name" ]} in
  length
    (tools.tools_from_schema
       (SpecMore.schema_of
          [valid "valid_tool"; nameless; tools.VStr "not a dict";
           valid "another_valid"])) = 2.
Proof.
  intros valid nameless.
  destruct (tools_from_schema_filter_map
              [valid "valid_tool"; nameless; tools.VStr "not a dict";
               valid "another_valid"]) as (Hmap & _).
  rewrite Hmap. vm_compute. reflexivity.
Defined.

(** X15: every tool that [tools_from_schema] returns, for any object given
    as the schema, is a dictionary with exactly the keys "name",
    "description" and "input_schema", whose name is true. *)
Theorem tools_from_schema_shape (schema : tools.value) :
  Forall SpecMore.is_extracted_tool (tools.tools_from_schema schema).
Proof.
  unfold tools.tools_from_schema.
  destruct schema as [| | | | |d|]; try by constructor.
  destruct (tools.get d "tools" (tools.VList [])) as [| | | |tool_list| |];
    try by constructor.
  rewrite extract_eq. cbn [app]. apply Forall_forall. intros v Hv.
  apply list_elem_of_omap in Hv as (u & _ & Hu).
  by apply entry_of_extracted with u.
Qed.

(** X16: [tools_from_schema] gives back a list of extracted tools as it
    is; so to extract a second time, from a schema made of the tools
    extracted, changes nothing. *)
Theorem tools_from_schema_idempotent (schema : tools.value) :
  (∀ extracted,
     Forall SpecMore.is_extracted_tool extracted →
     tools.tools_from_schema (SpecMore.schema_of extracted) = extracted)
  ∧ tools.tools_from_schema
      (SpecMore.schema_of (tools.tools_from_schema schema))
    = tools.tools_from_schema schema.
Proof.
  assert (Hfixed : ∀ extracted,
    Forall SpecMore.is_extracted_tool extracted →
    tools.tools_from_schema (SpecMore.schema_of extracted) = extracted).
  { intros extracted Hall. rewrite tools_of_schema_of.
    induction Hall as [|v l Hv _ IH]; [done|].
    cbn [omap list_omap]. by rewrite (extracted_entry_of v Hv), IH. }
  split; [exact Hfixed|].
  apply Hfixed. unfold tools.tools_from_schema.
  destruct schema as [| | | | |d|]; try by constructor.
  destruct (tools.get d "tools" (tools.VList [])) as [| | | |tool_list| |];
    try by constructor.
  rewrite extract_eq. cbn [app]. apply Forall_forall. intros v Hv.
  apply list_elem_of_omap in Hv as (u & _ & Hu).
  by apply entry_of_extracted with u.
Qed.

Lemma tools_from_schema_idempotent_witness :
  let tool : tools.value :=
    tools.VDict
      {[ "name" := tools.VStr "read_file";
         "description" := tools.VStr "Read a file";
         "input_schema" := tools.VDict {[ "type" := tools.VStr "object" ]} ]} in
  SpecMore.is_extracted_tool tool
  ∧ tools.tools_from_schema (SpecMore.schema_of [tool]) = [tool].
Proof.
  intros tool.
  assert (Htool : SpecMore.is_extracted_tool tool).
  { split; [|reflexivity]. unfold SpecMore.tool_keys.
    rewrite !dom_insert_L, dom_singleton_L. set_solver. }
  split; [exact Htool|].
  destruct (tools_from_schema_idempotent tools.VNone) as [Hfixed _].
  apply Hfixed. by constructor.
Defined.

(** X17: [tools_from_schema] never fails.  An object that is no
    dictionary, a dictionary without the key "tools", and one whose "tools" is
    no list give the empty list; of a dictionary only the entry "tools" is
    looked at. *)
Theorem tools_from_schema_invalid :
  (∀ schema, (∀ d, schema ≠ tools.VDict d) →
     tools.tools_from_schema schema = [])
  ∧ (∀ d, d !! "tools" = None → tools.tools_from_schema (tools.VDict d) = [])
  ∧ (∀ d v, d !! "tools" = Some v → (∀ l, v ≠ tools.VList l) →
       tools.tools_from_schema (tools.VDict d) = [])
  ∧ (∀ d d', d !! "tools" = d' !! "tools" →
       tools.tools_from_schema (tools.VDict d)
       = tools.tools_from_schema (tools.VDict d')).
Proof.
  repeat apply conj.
  - intros schema Hnodict. destruct schema as [| | | | |d|]; try done.
    by destruct (Hnodict d).
  - intros d Hd. unfold tools.tools_from_schema, tools.get. by rewrite Hd.
  - intros d v Hd Hnolist. unfold tools.tools_from_schema, tools.get.
    rewrite Hd. cbn [default].
    destruct v as [| | | |l| |]; try done. by destruct (Hnolist l).
  - intros d d' Hsame. unfold tools.tools_from_schema, tools.get.
    by rewrite Hsame.
Qed.

Lemma tools_from_schema_invalid_witness :
  tools.tools_from_schema (tools.VDict ∅) = []
  ∧ tools.tools_from_schema
      (tools.VDict {[ "tools" := tools.VStr "not a list" ]}) = []
  ∧ tools.tools_from_schema (tools.VStr "not a dict") = []
  ∧ tools.tools_from_schema tools.VNone = [].
Proof.
  destruct tools_from_schema_invalid as (Hnodict & Hmissing & Hnolist & _).
  repeat apply conj.
  - apply Hmissing. reflexivity.
  - apply (Hnolist _ (tools.VStr "not a list")); [reflexivity | done].
  - apply Hnodict. done.
  - apply Hnodict. done.
Defined.

(** X18: the fields of an extracted tool.  The input schema is the value of
    the key "inputSchema" when the tool has this key, also when that value
    is [None] and the tool has an "input_schema" as well; else the value of
    "input_schema"; else an empty dictionary.  A missing description is
    the empty string, and no other key of the tool is kept: the keys of the
    result are these three. *)
Theorem extracted_tool_fields (tool : gmap string tools.value) :
  tools.truthy (tools.get tool "name" tools.VNone) = true →
  ∃ out,
    tools.tools_from_schema (SpecMore.schema_of [tools.VDict tool])
      = [tools.VDict out]
    ∧ out !! "name" = tool !! "name"
    ∧ out !! "description"
      = Some (default (tools.VStr "") (tool !! "description"))
    ∧ (∀ v, tool !! "inputSchema" = Some v → out !! "input_schema" = Some v)
    ∧ (tool !! "inputSchema" = None →
       out !! "input_schema"
       = Some (default (tools.VDict ∅) (tool !! "input_schema")))
    ∧ out !! "is_placeholder" = None
    ∧ dom out = SpecMore.tool_keys.
Proof.
  intros Hname. rewrite tools_of_schema_of.
  cbn [omap list_omap SpecMore.entry_of]. rewrite Hname. eexists.
  split; [reflexivity|]. rewrite !tool_key_lookup.
  repeat (case_decide; try done). repeat apply conj; try done.
  - unfold tools.get in *.
    destruct (tool !! "name") as [v|]; [done|]. done.
  - by intros v ->.
  - by intros ->.
Qed.

Lemma extracted_tool_fields_witness :
  let tool : gmap string tools.value :=
    {[ "name" := tools.VStr "camel";
       "inputSchema" := tools.VNone;
       "input_schema" := tools.VDict {[ "type" := tools.VStr "array" ]} ]} in
  tools.tools_from_schema (SpecMore.schema_of [tools.VDict tool])
  = [tools.VDict
       {[ "name" := tools.VStr "camel";
          "description" := tools.VStr "";
          "input_schema" := tools.VNone ]}].
Proof.
  intros tool.
  destruct (extracted_tool_fields tool) as (out & Hout & _);
    [reflexivity|].
  rewrite Hout. symmetry. rewrite <- Hout. vm_compute. reflexivity.
Defined.

(** X19: a tool made by [create_placeholder_tool] with a name that is not
    empty is extracted by [tools_from_schema] with its name, its description
    and its empty object schema, and without its "is_placeholder" mark; one
    made with an empty name is dropped. *)
Theorem placeholder_tool_extracted (name description : string) :
  tools.tools_from_schema
    (SpecMore.schema_of [tools.create_placeholder_tool name description])
  = if Py.nonempty name then
      [tools.VDict
         {[ "name" := tools.VStr name;
            "description" := tools.VStr description;
            "input_schema" :=
              tools.VDict
                {[ "type" := tools.VStr "object";
                   "properties" := tools.VDict ∅ ]} ]}]
    else [].
Proof.
  rewrite tools_of_schema_of. unfold tools.create_placeholder_tool.
  cbn [omap list_omap SpecMore.entry_of]. unfold tools.get.
  rewrite !lookup_insert, !lookup_singleton.
  repeat (case_decide; try done).
  cbn [default from_option id tools.truthy]. by destruct (Py.nonempty name).
Qed.

(** ** Command strings at the edges *)

Section command_strings.
Import shlex.

Lemma read_blanks (blanks : string) :
  ∀ rest,
    Spec.all_chars whitespace blanks = true →
    read Blank Blank false "" (blanks +:+ rest) = read Blank Blank false "" rest.
Proof.
  induction blanks as [|c blanks IH]; intros rest; [done|].
  cbn [Spec.all_chars]. intros [Hc Hblanks]%andb_prop.
  cbn [String.append read]. rewrite Hc. cbn [Py.nonempty orb]. by apply IH.
Qed.

Lemma read_unclosed (q : ascii) (t : string) :
  ∀ escapedstate quoted token,
    Spec.all_chars
      (λ c, negb (Ascii.eqb c q) && negb (escape c && escapedquotes q)) t
      = true →
    read (InQuote q) escapedstate quoted token t = inl "No closing quotation".
Proof.
  induction t as [|c t IH]; intros esc quoted token; [done|].
  cbn [Spec.all_chars]. intros [[Hq He]%andb_prop Ht]%andb_prop.
  apply negb_true_iff in Hq, He. cbn [read]. rewrite Hq, He. by apply IH.
Qed.

Lemma no_single_quote (t : string) :
  Spec.all_chars (λ c, negb (Ascii.eqb c Py.squote)) t = true →
  Spec.all_chars
    (λ c, negb (Ascii.eqb c Py.squote)
          && negb (escape c && escapedquotes Py.squote)) t = true.
Proof.
  induction t as [|c t IH]; [done|]. cbn [Spec.all_chars].
  intros [Hc Ht]%andb_prop. rewrite Hc, (IH Ht). by rewrite andb_false_r.
Qed.
End command_strings.

Section lock_spawned.
Context `{Platform OS}.

Lemma lock_spawned (self : MCPTrust.t) (w : world OS)
    (sc : option string) (sa : option (list string))
    (lockfile : string) (pin vp : bool) (timeout : option Z)
    (log : option LogConfig.t) (receipt : option ReceiptConfig.t)
    (tokens : list string) :
  MCPTrust._parse_server_command sc sa = inr tokens →
  spawned (MCPTrust.lock self sc sa lockfile pin vp timeout log receipt w).2
  = spawned w
    ++ [MCPTrust.bin_path self ::
          Spec.lock_argv (MCPTrust._build_common_flags log receipt)
            lockfile pin vp tokens].
Proof.
  intros Hparse. rewrite build_common_flags_eq.
  destruct (subprocess_run
    (MCPTrust.bin_path self ::
       Spec.lock_argv (Spec.log_flags log ++ Spec.receipt_flags receipt)
         lockfile pin vp tokens) timeout (host w)) as [reply os] eqn:Hrun.
  by rewrite (lock_eq _ _ _ _ _ _ _ _ _ _ _ _ _ Hparse Hrun).
Qed.
End lock_spawned.

(** X20: a command string of blanks only is present, and has no tokens:
    no usage error is raised, and [lock] spawns a child whose argument vector
    ends with the separator. *)
Theorem blank_command_string `{Platform OS}
    (self : MCPTrust.t) (w : world OS) (s : string)
    (sa : option (list string))
    (lockfile : string) (pin vp : bool) (timeout : option Z)
    (log : option LogConfig.t) (receipt : option ReceiptConfig.t) :
  s ≠ "" → Spec.all_chars shlex.whitespace s = true →
  Py.truthy_list sa = false →
  MCPTrust._parse_server_command (Some s) sa = inr []
  ∧ spawned
      (MCPTrust.lock self (Some s) sa lockfile pin vp timeout log receipt w).2
    = spawned w
      ++ [[MCPTrust.bin_path self; "lock"]
          ++ MCPTrust._build_common_flags log receipt
          ++ ["--output"; lockfile] ++ Spec.when pin "--pin"
          ++ Spec.when vp "--verify-provenance" ++ ["--"]].
Proof.
  intros Hne Hblank Hsa.
  assert (Hparse : MCPTrust._parse_server_command (Some s) sa = inr []).
  { rewrite (parse_string _ _ Hne Hsa). unfold shlex.split.
    rewrite <- (append_nil_r s). by rewrite (read_blanks _ _ Hblank). }
  split; [exact Hparse|].
  rewrite (lock_spawned _ _ _ _ _ _ _ _ _ _ _ Hparse).
  unfold Spec.lock_argv. by rewrite !app_nil_r.
Qed.

Lemma blank_command_string_witness :
  let self := MCPTrust.mk "/mock/mcptrust" in
  let w := Scripted.start (Scripted.scripted [Scripted.exited 0 "" ""]) in
  MCPTrust._parse_server_command (Some "   ") None = inr []
  ∧ spawned
      (MCPTrust.lock self (Some "   ") None Defaults.lockfile Defaults.pin
         Defaults.verify_provenance None None None w).2
    = [["/mock/mcptrust"; "lock"; "--output"; "mcp-lock.json"; "--pin"; "--"]].
Proof.
  intros self w.
  destruct (blank_command_string self w "   " None Defaults.lockfile
              Defaults.pin Defaults.verify_provenance None None None)
    as [Hparse Hspawned]; [discriminate | reflexivity | reflexivity |].
  split; [exact Hparse|]. rewrite Hspawned. reflexivity.
Defined.

(** X21: a command string that opens a single quote and never closes it is
    a usage error: [lock] and [check] raise "No closing quotation" before
    any child process is spawned, whatever comes before the quote as
    well-written words. *)
Theorem unclosed_quote_rejected `{Platform OS}
    (self : MCPTrust.t) (w : world OS)
    (ws : list Spec.word) (t : string) (sa : option (list string))
    (lockfile preset : string) (pin vp : bool) (timeout : option Z)
    (log : option LogConfig.t) (receipt : option ReceiptConfig.t)
    (raise_on_fail : bool) :
  let s :=
    Py.join " " (Spec.written <$> ws ++ [Spec.Bare (String Py.squote t)]) in
  Forall (λ x, Spec.well_written x = true) ws →
  Spec.all_chars (λ c, negb (Ascii.eqb c Py.squote)) t = true →
  Py.truthy_list sa = false →
  shlex.split s = inl "No closing quotation"
  ∧ Spec.raised_before_spawn
      (MCPTrust.lock self (Some s) sa lockfile pin vp timeout log receipt w)
      w (ValueError "No closing quotation")
  ∧ Spec.raised_before_spawn
      (MCPTrust.check self (Some s) sa lockfile preset timeout log receipt
         raise_on_fail w)
      w (ValueError "No closing quotation").
Proof.
  intros s Hws Ht Hsa.
  assert (Hsplit : shlex.split s = inl "No closing quotation").
  { subst s. unfold shlex.split. clear Hsa.
    induction ws as [|x ws IH].
    - cbn [fmap list_fmap app Py.join Spec.written shlex.read].
      change (shlex.whitespace Py.squote) with false.
      change (shlex.escape Py.squote) with false.
      change (shlex.quotes Py.squote) with true. cbn match.
      by apply read_unclosed, no_single_quote.
    - apply Forall_cons in Hws as [Hx Hws]. specialize (IH Hws).
      rewrite fmap_app in *. cbn [fmap list_fmap app] in *.
      remember ((Spec.written <$> ws)
                ++ [Spec.written (Spec.Bare (String Py.squote t))])
        as rest eqn:Hrest.
      destruct rest as [|y ys]; [by destruct ws|].
      change (Py.join " " (Spec.written x :: y :: ys))
        with (Spec.written x +:+ String " " (Py.join " " (y :: ys))).
      destruct (read_word x (String " " (Py.join " " (y :: ys))) Hx)
        as [-> Hq].
      cbn [shlex.read]. change (shlex.whitespace " ") with true. cbn match.
      rewrite Hq, IH. unfold shlex.emit.
      apply orb_true_iff in Hq as [-> | ->]; by rewrite ?andb_false_r. }
  split; [exact Hsplit|].
  assert (Hne : s ≠ "").
  { intros Hs. rewrite Hs in Hsplit. done. }
  pose proof (parse_string _ _ Hne Hsa) as Hparse. rewrite Hsplit in Hparse.
  unfold Spec.raised_before_spawn.
  by rewrite (lock_usage_error _ _ _ _ _ _ _ _ _ _ _ Hparse),
    (check_usage_error _ _ _ _ _ _ _ _ _ _ _ Hparse).
Qed.

Lemma unclosed_quote_rejected_witness :
  let self := MCPTrust.mk "/mock/mcptrust" in
  let w := Scripted.start (Scripted.scripted [Scripted.exited 0 "" ""]) in
  MCPTrust.lock self (Some "npx -y 'my server") None Defaults.lockfile
    Defaults.pin Defaults.verify_provenance None None None w
  = (inl (ValueError "No closing quotation"), w).
Proof.
  intros self w.
  destruct (unclosed_quote_rejected self w
              [Spec.Bare "npx"; Spec.Bare "-y"] "my server" None
              Defaults.lockfile Defaults.preset Defaults.pin
              Defaults.verify_provenance None None None false)
    as (_ & Hlock & _); [repeat constructor | reflexivity | reflexivity |].
  exact Hlock.
Defined.

(** ** Command strings in general *)

Section lines.
Import shlex Spec SpecMore.

Lemma quoted_text_ok (w : word) :
  in_quotes w = true → well_written w = true →
  ∃ q, written w = String q (text w +:+ String q "")
       ∧ quotes q = true ∧ whitespace q = false
       ∧ all_chars
           (λ c, negb (Ascii.eqb c q) && negb (escape c && escapedquotes q))
           (text w) = true.
Proof.
  destruct w as [t|t|t]; [done| |]; intros _ Hall;
    cbn [well_written written text] in *.
  - exists Py.squote. repeat split. clear -Hall.
    induction t as [|c t IH]; [done|]. cbn [all_chars] in *.
    apply andb_prop in Hall as [Hc Ht].
    rewrite Hc, (IH Ht). by rewrite andb_false_r.
  - exists Py.dquote. repeat split. clear -Hall.
    induction t as [|c t IH]; [done|]. cbn [all_chars] in *.
    apply andb_prop in Hall as [Hc Ht].
    rewrite (IH Ht), andb_true_r. apply negb_true_iff in Hc.
    apply orb_false_elim in Hc as [-> ->]. done.
Qed.

(** Inside a word, a piece adds its text to the token. *)
Lemma read_piece (w : word) :
  ∀ escapedstate quoted token rest,
    well_written w = true →
    read InWord escapedstate quoted token (written w +:+ rest)
    = read InWord escapedstate (quoted || in_quotes w)
        (token +:+ text w) rest.
Proof.
  intros esc quoted token rest Hw.
  destruct (in_quotes w) eqn:Hq.
  - destruct (quoted_text_ok w Hq Hw) as (q & -> & Hquote & Hws & Hall).
    rewrite append_cons, append_assoc, append_cons. cbn [read].
    rewrite Hws, Hquote, orb_true_r. cbn [String.append].
    by apply read_quoted.
  - destruct w as [t|t|t]; try done. cbn [well_written written text] in *.
    apply andb_prop in Hw as [_ Hall]. rewrite orb_false_r.
    by apply read_bare.
Qed.

Lemma read_pieces (pieces : list word) :
  ∀ escapedstate quoted token rest,
    Forall (λ piece, well_written piece = true) pieces →
    Py.nonempty token || quoted = true →
    ∃ quoted',
      read InWord escapedstate quoted token (token_written pieces +:+ rest)
      = read InWord escapedstate quoted' (token +:+ token_text pieces) rest
      ∧ Py.nonempty (token +:+ token_text pieces) || quoted' = true.
Proof.
  induction pieces as [|w pieces IH]; intros esc quoted token rest Hall Hne.
  - exists quoted. cbn [token_written token_text foldr String.append].
    by rewrite append_nil_r.
  - apply Forall_cons in Hall as [Hw Hall].
    cbn [token_written token_text foldr].
    fold (token_written pieces). fold (token_text pieces).
    rewrite append_assoc, (read_piece w _ _ _ _ Hw).
    destruct (IH esc (quoted || in_quotes w) (token +:+ text w) rest Hall)
      as (quoted' & Hread & Hne').
    { destruct token, quoted; try done; by rewrite orb_true_r. }
    exists quoted'. by rewrite <- append_assoc, Hread.
Qed.

(** A token that starts on a blank state. *)
Lemma read_token_start (pieces : list word) (rest : string) :
  pieces ≠ [] →
  Forall (λ piece, well_written piece = true) pieces →
  ∃ quoted,
    read Blank Blank false "" (token_written pieces +:+ rest)
    = read InWord Blank quoted (token_text pieces) rest
    ∧ Py.nonempty (token_text pieces) || quoted = true.
Proof.
  destruct pieces as [|w pieces]; [done|]. intros _ Hall.
  apply Forall_cons in Hall as [Hw Hall].
  cbn [token_written token_text foldr].
  fold (token_written pieces). fold (token_text pieces).
  rewrite append_assoc.
  destruct (read_word w (token_written pieces +:+ rest) Hw) as [-> Hne].
  by apply read_pieces.
Qed.

(** The end of a token: the end of the string, or a blank. *)
Lemma read_token_end (quoted : bool) (token blanks rest : string)
    (tokens : list string) :
  Py.nonempty token || quoted = true →
  all_chars whitespace blanks = true →
  (blanks = "" → rest = "") →
  read Blank Blank false "" rest = inr tokens →
  read InWord Blank quoted token (blanks +:+ rest) = inr (token :: tokens).
Proof.
  intros Hne Hblanks Hend Hrest.
  assert (Hemit : ∀ more, emit quoted token (inr more) = inr (token :: more)).
  { intros more. unfold emit.
    apply orb_true_iff in Hne as [-> | ->]; by rewrite ?andb_false_r. }
  destruct blanks as [|c blanks].
  - rewrite (Hend eq_refl) in *. cbn [String.append read].
    rewrite Hemit. cbn [read] in Hrest. unfold emit in Hrest.
    cbn in Hrest. by injection Hrest as <-.
  - cbn [all_chars] in Hblanks. apply andb_prop in Hblanks as [Hc Hblanks].
    cbn [String.append read]. rewrite Hc, Hne.
    by rewrite (read_blanks _ _ Hblanks), Hrest, Hemit.
Qed.

Lemma read_line (tokens : list (string * list word)) (trailing : string) :
  all_chars whitespace trailing = true →
  Forall token_ok tokens →
  Forall set_off (tail tokens) →
  read Blank Blank false "" (line tokens trailing)
  = inr (token_text ∘ snd <$> tokens).
Proof.
  intros Htrailing. induction tokens as [|[blanks pieces] tokens IH].
  - intros _ _. cbn [line fmap list_fmap].
    rewrite <- (append_nil_r trailing). by rewrite (read_blanks _ _ Htrailing).
  - intros [(Hblanks & Hpieces & Hall) Hok]%Forall_cons Hoff.
    cbn [fst snd tail] in *. cbn [line fmap list_fmap compose snd].
    rewrite (read_blanks _ _ Hblanks).
    destruct (read_token_start pieces (line tokens trailing) Hpieces Hall)
      as (quoted & -> & Hne).
    destruct tokens as [|[blanks' pieces'] tokens].
    + cbn [line fmap list_fmap].
      rewrite <- (append_nil_r trailing).
      by apply read_token_end.
    + apply Forall_cons in Hoff as [Hoff' Hoff].
      apply Forall_cons in Hok as [(Hblanks' & Hpieces' & Hall') Hok].
      cbn [fst snd] in *. unfold set_off in Hoff'. cbn [fst] in Hoff'.
      change (line ((blanks', pieces') :: tokens) trailing)
        with (blanks' +:+ token_written pieces' +:+ line tokens trailing).
      apply read_token_end; [done | done | done |].
      rewrite <- (read_blanks blanks' _ Hblanks').
      change (blanks' +:+ token_written pieces' +:+ line tokens trailing)
        with (line ((blanks', pieces') :: tokens) trailing).
      apply IH; [by apply Forall_cons | exact Hoff].
Qed.
End lines.

(** X22: [shlex.split] on a command string in general.  For a string of
    tokens, each a run of pieces that are bare or in single or double quotes
    with nothing in between, set off from one another by one or more blanks
    of any kind, with blanks before the first and after the last or not, it
    returns one token per run: the texts of its pieces joined.  So blanks
    around and between tokens change nothing, a quoted piece keeps its
    blanks, and a quoted piece next to a bare one is part of the same token;
    [lock] gives these tokens to its child after the separator. *)
Theorem command_string_tokens `{Platform OS}
    (self : MCPTrust.t) (w : world OS)
    (tokens : list (string * list Spec.word)) (trailing : string)
    (sa : option (list string))
    (lockfile : string) (pin vp : bool) (timeout : option Z)
    (log : option LogConfig.t) (receipt : option ReceiptConfig.t) :
  let s := SpecMore.line tokens trailing in
  let texts := SpecMore.token_text ∘ snd <$> tokens in
  Spec.all_chars shlex.whitespace trailing = true →
  Forall SpecMore.token_ok tokens →
  Forall SpecMore.set_off (tail tokens) →
  shlex.split s = inr texts
  ∧ (s ≠ "" → Py.truthy_list sa = false →
     Spec.uses_tokens w
       (MCPTrust.lock self (Some s) sa lockfile pin vp timeout log receipt w).2
       texts).
Proof.
  intros s texts Htrailing Hok Hoff.
  assert (Hsplit : shlex.split s = inr texts) by (by apply read_line).
  split; [exact Hsplit|]. intros Hne Hsa.
  apply lock_uses_tokens. by rewrite (parse_string _ _ Hne Hsa), Hsplit.
Qed.

Lemma command_string_tokens_witness :
  let tab := String (ascii_of_N 9) "" in
  let s :=
    SpecMore.line
      [("  ", [Spec.Bare "npx"]);
       (tab, [Spec.Bare "--root="; Spec.Double "/path with spaces";
              Spec.Bare "/x"]);
       (" ", [Spec.Single ""])] " " in
  shlex.split s = inr ["npx"; "--root=/path with spaces/x"; ""].
Proof.
  intros tab s.
  destruct (command_string_tokens (MCPTrust.mk "/mock/mcptrust")
              (Scripted.start Scripted.bare)
              [("  ", [Spec.Bare "npx"]);
               (tab, [Spec.Bare "--root="; Spec.Double "/path with spaces";
                      Spec.Bare "/x"]);
               (" ", [Spec.Single ""])] " " None Defaults.lockfile
              Defaults.pin Defaults.verify_provenance None None None)
    as [Hsplit _].
  - reflexivity.
  - repeat constructor; discriminate.
  - repeat constructor; discriminate.
  - exact Hsplit.
Defined.
